(** * Passkey example server and client key codec

    A shallow embedding of the WebAuthn glue code of the repository:

    - the client-side SPKI decoder [parseP256SpkiBase64] and its caller
      [parseCred] (src/utils/parseCred.ts),
    - the server-side helpers [uint8ArrayToBase64Url], [base64urlToUint8Array]
      and [parseCoseP256Key] (the Hono passkey server),
    - the four request handlers of that server, which read and write the
      three process-wide maps [userDB], [registrationChallengeMap] and
      [loginChallengeMap].

    JavaScript strings are modelled as [string] (one [ascii] per code unit,
    which covers every base64, base64url and hex text), byte arrays
    ([Uint8Array], [Buffer]) as [list byte], the [Map] objects as [gmap].
    Code that can throw lives in a small state-and-exception monad [JS]
    whose state is the [World]: the three maps and the console.

    The packages the code calls are not part of the repository.  The base64
    and hex conversions of [Buffer] and [atob] are written out; [asn1js],
    [cbor] and the two verifiers of [@simplewebauthn/server] are parameters
    (the classes [CodecLibraries] and [WebAuthnServer]), taken as functions
    of their arguments.  A handler is one transition of the world: requests
    are served one after the other.  *)

From Stdlib Require Import NArith ZArith Ascii String List Lia DecimalString.
From Stdlib.Init Require Import Byte.
From Stdlib.Strings Require Byte.
From stdpp Require Import base option list gmap strings.

Set Warnings "-register-all".

Local Open Scope string_scope.
Local Open Scope N_scope.

(** ** JavaScript strings *)

Module JsString.

(** [s.replace(/c/g, d)] for a one-character pattern [c]. *)
Fixpoint replace_all (c d : ascii) (s : string) : string :=
  match s with
  | EmptyString => EmptyString
  | String a s' => String (if Ascii.eqb a c then d else a) (replace_all c d s')
  end.

(** [s.replace(/=+$/, "")]: drops the maximal run of ['='] at the end. *)
Fixpoint strip_trailing_eq (s : string) : string :=
  match s with
  | EmptyString => EmptyString
  | String a s' =>
      match strip_trailing_eq s' with
      | EmptyString => if Ascii.eqb a "=" then EmptyString else String a EmptyString
      | r => String a r
      end
  end.

(** [s.replace(/c/g, "")] for a one-character pattern [c]. *)
Fixpoint remove_all (c : ascii) (s : string) : string :=
  match s with
  | EmptyString => EmptyString
  | String a s' => if Ascii.eqb a c then remove_all c s' else String a (remove_all c s')
  end.

(** ["=".repeat(n)] *)
Fixpoint repeat_eq (n : nat) : string :=
  match n with
  | O => EmptyString
  | S n' => String "=" (repeat_eq n')
  end.

(** [s.length] as a JavaScript number. *)
Definition length (s : string) : N := N.of_nat (String.length s).

(** [s.padEnd(n, "=")] *)
Definition padEnd_eq (s : string) (n : N) : string :=
  s +:+ repeat_eq (N.to_nat (n - length s)).

(** Truthiness of an optional string: [undefined] and [""] are falsy. *)
Definition truthy (o : option string) : option string :=
  match o with
  | Some EmptyString => None
  | _ => o
  end.

End JsString.

(** ** Bytes *)

Definition byte_of_N (n : N) : byte :=
  match Byte.of_N (n mod 256) with
  | Some b => b
  | None => Byte.x00
  end.

(** ** Base64 (RFC 4648) as implemented by [Buffer] and [atob] *)

Module Base64.

Definition alphabet : string :=
  "ABCDEFGHIJKLMNOPQRSTUVWXYZabcdefghijklmnopqrstuvwxyz0123456789+/".

(** The character of a six-bit value. *)
Definition char_of_sextet (v : N) : ascii :=
  match String.get (N.to_nat v) alphabet with
  | Some c => c
  | None => "="%char
  end.

Fixpoint index_from (i : N) (c : ascii) (s : string) : option N :=
  match s with
  | EmptyString => None
  | String a s' => if Ascii.eqb a c then Some i else index_from (N.succ i) c s'
  end.

(** The six-bit value of a character of the standard alphabet. *)
Definition sextet_of_char (c : ascii) : option N := index_from 0 c alphabet.

(** [Buffer]'s decoding table also accepts the URL-safe characters. *)
Definition sextet_of_char_lenient (c : ascii) : option N :=
  if Ascii.eqb c "-" then Some 62
  else if Ascii.eqb c "_" then Some 63
  else sextet_of_char c.

(** [buf.toString("base64")]: three bytes give four characters; a final
    group of one or two bytes is zero-extended and padded with ['=']. *)
Fixpoint encode (bs : list byte) : string :=
  match bs with
  | [] => EmptyString
  | [b0] =>
      let n := Byte.to_N b0 * 16 in
      String (char_of_sextet (n / 64))
        (String (char_of_sextet (n mod 64)) "==")
  | [b0; b1] =>
      let n := (Byte.to_N b0 * 256 + Byte.to_N b1) * 4 in
      String (char_of_sextet (n / 4096))
        (String (char_of_sextet (n / 64 mod 64))
           (String (char_of_sextet (n mod 64)) "="))
  | b0 :: b1 :: b2 :: rest =>
      let n := Byte.to_N b0 * 65536 + Byte.to_N b1 * 256 + Byte.to_N b2 in
      String (char_of_sextet (n / 262144))
        (String (char_of_sextet (n / 4096 mod 64))
           (String (char_of_sextet (n / 64 mod 64))
              (String (char_of_sextet (n mod 64)) (encode rest))))
  end.

(** Four six-bit values give three bytes; a final group of three gives two
    bytes, of two gives one byte, and a single left-over value gives none. *)
Fixpoint decode_sextets (l : list N) : list byte :=
  match l with
  | s0 :: s1 :: s2 :: s3 :: rest =>
      let n := ((s0 * 64 + s1) * 64 + s2) * 64 + s3 in
      byte_of_N (n / 65536) :: byte_of_N (n / 256) :: byte_of_N n
        :: decode_sextets rest
  | [s0; s1; s2] =>
      let n := ((s0 * 64 + s1) * 64 + s2) / 4 in
      [byte_of_N (n / 256); byte_of_N n]
  | [s0; s1] =>
      let n := (s0 * 64 + s1) / 16 in
      [byte_of_N n]
  | _ => []
  end.

(** Strict reading of a text: every character must be in the alphabet. *)
Fixpoint sextets_strict (s : string) : option (list N) :=
  match s with
  | EmptyString => Some []
  | String c s' =>
      match sextet_of_char c, sextets_strict s' with
      | Some v, Some l => Some (v :: l)
      | _, _ => None
      end
  end.

(** Lenient reading of a text, as [Buffer.from(s, "base64")] does: decoding
    stops at the first ['='], characters outside both alphabets are skipped. *)
Fixpoint sextets_lenient (s : string) : list N :=
  match s with
  | EmptyString => []
  | String c s' =>
      if Ascii.eqb c "=" then []
      else match sextet_of_char_lenient c with
           | Some v => v :: sextets_lenient s'
           | None => sextets_lenient s'
           end
  end.

Definition is_ascii_whitespace (c : ascii) : bool :=
  let n := N_of_ascii c in
  (n =? 9) || (n =? 10) || (n =? 12) || (n =? 13) || (n =? 32).

Fixpoint remove_whitespace (s : string) : string :=
  match s with
  | EmptyString => EmptyString
  | String c s' =>
      if is_ascii_whitespace c then remove_whitespace s'
      else String c (remove_whitespace s')
  end.

(** Removes one or two ['='] at the end (the padding [atob] tolerates). *)
Fixpoint drop_padding (s : string) : string :=
  match s with
  | "=" => EmptyString
  | "==" => EmptyString
  | EmptyString => EmptyString
  | String c s' => String c (drop_padding s')
  end.

(** [atob(data)]: the forgiving-base64 decoding of the HTML standard.
    [None] stands for the [InvalidCharacterError] it throws. *)
Definition atob (data : string) : option string :=
  let data := remove_whitespace data in
  let data :=
    if JsString.length data mod 4 =? 0 then drop_padding data else data in
  if JsString.length data mod 4 =? 1 then None
  else match sextets_strict data with
       | Some l => Some (string_of_list_byte (decode_sextets l))
       | None => None
       end.

(** [Buffer.from(s, "base64")] never throws. *)
Definition Buffer_from_base64 (s : string) : list byte :=
  decode_sextets (sextets_lenient s).

End Base64.

(** ** Hexadecimal text *)

Module Hex.

Definition digit (v : N) : ascii :=
  match String.get (N.to_nat v) "0123456789abcdef" with
  | Some c => c
  | None => "0"%char
  end.

(** [buf.toString("hex")]: two lower-case digits per byte. *)
Fixpoint encode (bs : list byte) : string :=
  match bs with
  | [] => EmptyString
  | b :: rest =>
      String (digit (Byte.to_N b / 16))
        (String (digit (Byte.to_N b mod 16)) (encode rest))
  end.

End Hex.

(** ** The server's data *)

(** [UserRecord.credentials]: both texts are base64url. *)
Record Credentials : Type := {
  credentialID : string;
  publicKey : string;
  counter : N
}.

Record UserRecord : Type := {
  username : string;
  credentials : Credentials
}.

(** The state a request can observe or change: the three module-level
    [Map] objects of the server, and the console. *)
Record World : Type := {
  userDB : gmap string UserRecord;
  registrationChallengeMap : gmap string string;
  loginChallengeMap : gmap string bool;
  console : list string
}.

(** The three maps without the console. *)
Definition stores (w : World)
  : gmap string UserRecord * gmap string string * gmap string bool :=
  (userDB w, registrationChallengeMap w, loginChallengeMap w).

(** ** Computations that may throw and may touch the world *)

Record JsError : Type := Error { message : string }.

Inductive Completion (A : Type) : Type :=
| Normal (a : A)
| Thrown (e : JsError).
Arguments Normal {A} a.
Arguments Thrown {A} e.

Definition JS (A : Type) : Type := World -> World * Completion A.

Definition ret {A} (a : A) : JS A := fun w => (w, Normal a).

Definition throw {A} (e : JsError) : JS A := fun w => (w, Thrown e).

Definition bind {A B} (m : JS A) (k : A -> JS B) : JS B :=
  fun w =>
    match m w with
    | (w', Normal a) => k a w'
    | (w', Thrown e) => (w', Thrown e)
    end.

(** [try { m } catch (err) { handler }]: what [m] did to the world before it
    threw stays done. *)
Definition try_catch {A} (m : JS A) (handler : JsError -> JS A) : JS A :=
  fun w =>
    match m w with
    | (w', Normal a) => (w', Normal a)
    | (w', Thrown e) => handler e w'
    end.

(** The value of a call into a library that returns or throws. *)
Definition lift {A} (c : Completion A) : JS A := fun w => (w, c).

Definition get_world : JS World := fun w => (w, Normal w).

Definition modify (f : World -> World) : JS unit := fun w => (f w, Normal tt).

Declare Scope js_scope.
Delimit Scope js_scope with js.
Notation "x <- m ;; k" := (bind m (fun x => k))
  (at level 100, m at next level, right associativity) : js_scope.
Notation "m ;;; k" := (bind m (fun _ => k))
  (at level 100, right associativity) : js_scope.
Local Open Scope js_scope.

(** A computation is pure when it returns the same completion in every
    world and leaves the world as it found it. *)
Definition pure {A} (m : JS A) : Prop :=
  exists c : Completion A, forall w : World, m w = (w, c).

(** *** The primitives on the world *)

Definition userDB_get (k : string) : JS (option UserRecord) :=
  w <- get_world ;; ret (userDB w !! k).

Definition userDB_set (k : string) (v : UserRecord) : JS unit :=
  modify (fun w =>
    {| userDB := <[k := v]> (userDB w);
       registrationChallengeMap := registrationChallengeMap w;
       loginChallengeMap := loginChallengeMap w;
       console := console w |}).

(** [userRecord.credentials.counter = n] through the reference that
    [userDB.get(k)] returned.  Every [userDB.set] of the server stores a
    fresh object literal, so the object is reachable from key [k] only and
    the assignment is an update of that entry. *)
Definition userRecord_set_counter (k : string) (n : N) : JS unit :=
  modify (fun w =>
    {| userDB :=
         alter (fun r =>
           {| username := username r;
              credentials :=
                {| credentialID := credentialID (credentials r);
                   publicKey := publicKey (credentials r);
                   counter := n |} |}) k (userDB w);
       registrationChallengeMap := registrationChallengeMap w;
       loginChallengeMap := loginChallengeMap w;
       console := console w |}).

Definition registrationChallengeMap_get (k : string) : JS (option string) :=
  w <- get_world ;; ret (registrationChallengeMap w !! k).

Definition registrationChallengeMap_set (k v : string) : JS unit :=
  modify (fun w =>
    {| userDB := userDB w;
       registrationChallengeMap := <[k := v]> (registrationChallengeMap w);
       loginChallengeMap := loginChallengeMap w;
       console := console w |}).

Definition registrationChallengeMap_delete (k : string) : JS unit :=
  modify (fun w =>
    {| userDB := userDB w;
       registrationChallengeMap := delete k (registrationChallengeMap w);
       loginChallengeMap := loginChallengeMap w;
       console := console w |}).

Definition loginChallengeMap_has (k : string) : JS bool :=
  w <- get_world ;;
  ret (match loginChallengeMap w !! k with Some _ => true | None => false end).

Definition loginChallengeMap_set (k : string) (v : bool) : JS unit :=
  modify (fun w =>
    {| userDB := userDB w;
       registrationChallengeMap := registrationChallengeMap w;
       loginChallengeMap := <[k := v]> (loginChallengeMap w);
       console := console w |}).

Definition loginChallengeMap_delete (k : string) : JS unit :=
  modify (fun w =>
    {| userDB := userDB w;
       registrationChallengeMap := registrationChallengeMap w;
       loginChallengeMap := delete k (loginChallengeMap w);
       console := console w |}).

(** [console.log] and [console.error] append one line. *)
Definition console_log (line : string) : JS unit :=
  modify (fun w =>
    {| userDB := userDB w;
       registrationChallengeMap := registrationChallengeMap w;
       loginChallengeMap := loginChallengeMap w;
       console := console w ++ [line] |}).

(** ** Values handed over by the libraries *)

(** A decoded CBOR item as the [cbor] package hands it to JavaScript. *)
Inductive JsValue : Type :=
| JsUndefined
| JsNull
| JsBool (b : bool)
| JsNumber (n : Z)
| JsStr (s : string)
| JsBuffer (bytes : list byte)
| JsArray (items : list JsValue)
| JsMap (entries : list (JsValue * JsValue))
| JsObject (props : list (string * JsValue)).

(** [!v] is false exactly on the truthy values. *)
Definition truthy (v : JsValue) : bool :=
  match v with
  | JsUndefined | JsNull | JsBool false | JsNumber 0%Z | JsStr EmptyString => false
  | _ => true
  end.

(** [map.get(n)] for a number key [n]; [undefined] when no entry has it. *)
Fixpoint Map_get (entries : list (JsValue * JsValue)) (n : Z) : JsValue :=
  match entries with
  | [] => JsUndefined
  | (JsNumber k, v) :: rest => if (k =? n)%Z then v else Map_get rest n
  | _ :: rest => Map_get rest n
  end.

(** The result of [fromBER], by what the decoder can observe of a block:
    - [Sequence]: a block whose [valueBlock.value] is an array of blocks and
      that is not a [BitString] (Sequence, Set, ...);
    - [BitString]: an instance of [BitString], with its [valueBlock.valueHex]
      and its [valueBlock.value];
    - [StringBlock]: a text block, whose [valueBlock.value] is a string;
    - [Primitive]: any other block, whose [valueBlock.value] is [undefined]. *)
Module Asn1.

Inductive Block : Type :=
| Sequence (value : list Block)
| BitString (valueHex : list byte) (value : list Block)
| StringBlock (value : string)
| Primitive (valueHex : list byte).

Record FromBerResult : Type := { offset : Z; result : Block }.

(** [block.valueBlock.value.length]; [None] when [value] is [undefined]. *)
Definition value_length (b : Block) : option N :=
  match b with
  | Sequence value | BitString _ value => Some (N.of_nat (List.length value))
  | StringBlock value => Some (JsString.length value)
  | Primitive _ => None
  end.

(** [block.valueBlock.value[1]] when it is a block. *)
Definition value_at_1 (b : Block) : option Block :=
  match b with
  | Sequence value | BitString _ value => nth_error value 1
  | StringBlock _ | Primitive _ => None
  end.

End Asn1.

(** The libraries the codec calls: [asn1js], [cbor] and [Buffer.from] on a
    decoded item.  [Buffer.from] copies a buffer; on other values it is left
    to the library. *)
Class CodecLibraries : Type := {
  fromBER : list byte -> Asn1.FromBerResult;
  cbor_decodeFirstSync : list byte -> Completion JsValue;
  Buffer_from : JsValue -> Completion (list byte);
  Buffer_from_buffer : forall bytes, Buffer_from (JsBuffer bytes) = Normal bytes;
  keccak256 : string -> string
}.

(** ** The codec *)

Record Coordinates : Type := { xHex : string; yHex : string }.

Definition decimal (n : N) : string :=
  DecimalString.NilZero.string_of_uint (N.to_uint n).

(** [pkBitString.slice(from, to)] *)
Definition slice (bytes : list byte) (from to : nat) : list byte :=
  firstn (to - from) (skipn from bytes).

Section Codec.

Context `{CodecLibraries}.

Definition uint8ArrayToBase64Url (uint8Array : list byte) : string :=
  let base64String := Base64.encode uint8Array in
  let base64UrlString :=
    JsString.strip_trailing_eq
      (JsString.replace_all "/" "_"
         (JsString.replace_all "+" "-" base64String)) in
  base64UrlString.

Definition base64urlToUint8Array (base64url : string) : JS (list byte) :=
  let padding :=
    JsString.repeat_eq
      (N.to_nat ((4 - JsString.length base64url mod 4) mod 4)) in
  let base64 :=
    JsString.replace_all "_" "/"
      (JsString.replace_all "-" "+" (base64url +:+ padding)) in
  match Base64.atob base64 with
  | None => throw (Error "The string to be decoded is not correctly encoded.")
  | Some rawData => ret (list_byte_of_string rawData)
  end.

Definition parseCoseP256Key (coseB64Url : string) : JS Coordinates :=
  let base64 :=
    JsString.replace_all "_" "/" (JsString.replace_all "-" "+" coseB64Url) in
  let pad := 4 - JsString.length base64 mod 4 in
  let base64Padded :=
    if negb (pad =? 4) then base64 +:+ JsString.repeat_eq (N.to_nat pad)
    else base64 in
  let coseBytes := Base64.Buffer_from_base64 base64Padded in
  coseStruct <- lift (cbor_decodeFirstSync coseBytes) ;;
  match coseStruct with
  | JsMap entries =>
      let xBuf := Map_get entries (-2) in
      let yBuf := Map_get entries (-3) in
      if negb (truthy xBuf) || negb (truthy yBuf)
      then throw (Error "COSE key missing x or y")
      else
        xBytes <- lift (Buffer_from xBuf) ;;
        yBytes <- lift (Buffer_from yBuf) ;;
        ret {| xHex := Hex.encode xBytes; yHex := Hex.encode yBytes |}
  | _ => throw (Error "COSE public key is not a CBOR map?")
  end.

Definition b64ToBytes (base64 : string) : JS (list byte) :=
  let paddedBase64 :=
    JsString.padEnd_eq
      (JsString.replace_all "_" "/" (JsString.replace_all "-" "+" base64))
      (JsString.length base64 + (4 - JsString.length base64 mod 4) mod 4) in
  match Base64.atob paddedBase64 with
  | None => throw (Error "The string to be decoded is not correctly encoded.")
  | Some binString => ret (list_byte_of_string binString)
  end.

Definition uint8ArrayToHexString (array : list byte) : string :=
  "0x" +:+ Hex.encode array.

Definition parseP256SpkiBase64 (pubKeyB64 : string) : JS Coordinates :=
  let raw := Base64.Buffer_from_base64 pubKeyB64 in
  let asn1 := fromBER raw in
  if (Asn1.offset asn1 =? -1)%Z
  then throw (Error "Failed to parse ASN.1 structure (offset = -1).")
  else
    let spkiSequence := Asn1.result asn1 in
    match Asn1.value_length spkiSequence with
    | None =>
        throw (Error "Cannot read properties of undefined (reading 'length')")
    | Some len =>
        if len <? 2
        then throw (Error "Not a valid SubjectPublicKeyInfo sequence.")
        else
          match Asn1.value_at_1 spkiSequence with
          | Some (Asn1.BitString valueHex _) =>
              let pkBitString := valueHex in
              if N.of_nat (List.length pkBitString) <? 65
              then throw (Error
                ("Public key bit string is too short. Length = "
                 +:+ decimal (N.of_nat (List.length pkBitString))))
              else
                match pkBitString with
                | Byte.x04 :: _ =>
                    let xBytes := slice pkBitString 1 33 in
                    let yBytes := slice pkBitString 33 65 in
                    ret {| xHex := Hex.encode xBytes;
                           yHex := Hex.encode yBytes |}
                | _ =>
                    throw (Error
                      "Expected uncompressed format (0x04) at start of public key data.")
                end
          | _ =>
              throw (Error
                "SPKI does not contain a BitString in the second element.")
          end
    end.

End Codec.

(** [parseCred] of the client: the key of a registration response, logged
    on the console on the way. *)
Record WebAuthnKey : Type := {
  pubX : N;
  pubY : N;
  authenticatorId : string;
  authenticatorIdHash : string
}.

Definition hex_digit_value (c : ascii) : N :=
  match Base64.index_from 0 c "0123456789abcdef" with
  | Some v => v
  | None => 0
  end.

(** [BigInt("0x" + hex)] on a text of hexadecimal digits. *)
Definition BigInt_of_hex (hex : string) : N :=
  fold_left (fun acc c => acc * 16 + hex_digit_value c)
    (list_ascii_of_string hex) 0.

(** ** Requests and responses of the server *)

Record AuthenticatorAttestationResponseJSON : Type := {
  att_clientDataJSON : string;
  att_attestationObject : string;
  att_publicKey : option string
}.

Record RegistrationResponseJSON : Type := {
  reg_id : string;
  reg_rawId : string;
  reg_response : AuthenticatorAttestationResponseJSON
}.

Record AuthenticatorAssertionResponseJSON : Type := {
  clientDataJSON : string;
  authenticatorData : string;
  signature : string;
  userHandle : option string
}.

Record AuthenticationResponseJSON : Type := {
  auth_id : string;
  auth_rawId : string;
  auth_response : AuthenticatorAssertionResponseJSON
}.

Record VerifyRegistrationResponseOpts : Type := {
  vr_response : RegistrationResponseJSON;
  vr_expectedChallenge : string;
  vr_expectedRPID : string;
  vr_expectedOrigin : string;
  vr_requireUserVerification : bool
}.

Record RegistrationInfo : Type := {
  ri_credentialID : list byte;
  ri_credentialPublicKey : list byte;
  ri_counter : N
}.

Record VerifiedRegistrationResponse : Type := {
  reg_verified : bool;
  registrationInfo : option RegistrationInfo
}.

Record AuthenticatorDevice : Type := {
  ad_credentialID : list byte;
  ad_credentialPublicKey : list byte;
  ad_counter : N
}.

Record VerifyAuthenticationResponseOpts : Type := {
  va_response : AuthenticationResponseJSON;
  va_expectedChallenge : string;
  va_expectedRPID : string;
  va_expectedOrigin : string;
  va_authenticator : AuthenticatorDevice
}.

Record AuthenticationInfo : Type := { newCounter : N }.

Record VerifiedAuthenticationResponse : Type := {
  auth_verified : bool;
  authenticationInfo : option AuthenticationInfo
}.

(** The verifiers of [@simplewebauthn/server]; a rejected promise is a
    [Thrown] completion at the [await]. *)
Class WebAuthnServer : Type := {
  verifyRegistrationResponse :
    VerifyRegistrationResponseOpts -> Completion VerifiedRegistrationResponse;
  verifyAuthenticationResponse :
    VerifyAuthenticationResponseOpts -> Completion VerifiedAuthenticationResponse
}.

Record RegistrationOptions : Type := {
  ro_challenge : string;
  ro_rpName : string;
  ro_rpID : string;
  ro_userID : string;
  ro_userName : string;
  ro_supportedAlgorithmIDs : list Z;
  ro_userVerification : string;
  ro_residentKey : string
}.

Record AuthenticationOptions : Type := {
  ao_challenge : string;
  ao_rpID : string;
  ao_userVerification : string
}.

Inductive JsonBody : Type :=
| ErrorBody (error : string)
| RegistrationOptionsBody (options : RegistrationOptions)
| AuthenticationOptionsBody (options : AuthenticationOptions)
| RegistrationVerified
| LoginVerified (xHex yHex : string).

Record Response : Type := { body : JsonBody; status : N }.

(** [c.json(body)] and [c.json(body, status)] *)
Definition json (b : JsonBody) : Response := {| body := b; status := 200 |}.
Definition json_status (b : JsonBody) (st : N) : Response :=
  {| body := b; status := st |}.

Definition rpID : string := "example.com".
Definition rpName : string := "EXAMPLE_APP".
Definition ORIGIN : string := "ORIGIN".

(** A request as it reaches a handler.  The values the handler draws from
    outside (the [uuidv4()] identifier and the random challenge that the
    options generators put in their result) travel with the request. *)
Inductive Request : Type :=
| GenerateRegistrationOptions (userName : string) (uuid challenge : string)
| VerifyRegistration (userId : string) (credential : RegistrationResponseJSON)
| GenerateLoginOptions (challenge : string)
| VerifyLogin (credential : AuthenticationResponseJSON) (challenge : string).

Section Client.

Context `{CodecLibraries}.

Definition parseCred (cred : RegistrationResponseJSON) : JS WebAuthnKey :=
  let authenticatorId := reg_id cred in
  idBytes <- b64ToBytes authenticatorId ;;
  let authenticatorIdHash := keccak256 (uint8ArrayToHexString idBytes) in
  let pubKey := att_publicKey (reg_response cred) in
  match JsString.truthy pubKey with
  | None => throw (Error "No public key found in response")
  | Some pubKey =>
      coords <- parseP256SpkiBase64 pubKey ;;
      (console_log ("X coordinate: " +:+ xHex coords) ;;;
       console_log ("Y coordinate: " +:+ yHex coords) ;;;
       ret {| pubX := BigInt_of_hex (xHex coords);
              pubY := BigInt_of_hex (yHex coords);
              authenticatorId := authenticatorId;
              authenticatorIdHash := authenticatorIdHash |})
  end.

End Client.

(** ** The handlers

    A handler runs from the arrival of its request to its response as one
    transition of the world; the verifier it awaits is consulted inside that
    transition. *)

Section Server.

Context `{CodecLibraries} `{WebAuthnServer}.

(** POST /generate-registration-options *)
Definition generate_registration_options (userName uuid challenge : string)
  : JS Response :=
  let userId := uuid in
  found <- userDB_get userId ;;
  userRecord <-
    match found with
    | Some userRecord => ret userRecord
    | None =>
        let userRecord :=
          {| username := userName;
             credentials :=
               {| credentialID := ""; publicKey := ""; counter := 0 |} |} in
        (userDB_set userId userRecord ;;; ret userRecord)
    end ;;
  let options :=
    {| ro_challenge := challenge;
       ro_rpName := rpName;
       ro_rpID := rpID;
       ro_userID := userId;
       ro_userName := username userRecord;
       ro_supportedAlgorithmIDs := [(-7)%Z];
       ro_userVerification := "required";
       ro_residentKey := "required" |} in
  (registrationChallengeMap_set userId (ro_challenge options) ;;;
   ret (json (RegistrationOptionsBody options))).

(** POST /verify-registration *)
Definition verify_registration (userId : string)
    (credential : RegistrationResponseJSON) : JS Response :=
  found <- registrationChallengeMap_get userId ;;
  match JsString.truthy found with
  | None => ret (json_status (ErrorBody "No challenge found for user") 400)
  | Some expectedChallenge =>
      found <- userDB_get userId ;;
      match found with
      | None => ret (json_status (ErrorBody "User not found") 404)
      | Some userRecord =>
          try_catch
            (verification <-
               lift (verifyRegistrationResponse
                       {| vr_response := credential;
                          vr_expectedChallenge := expectedChallenge;
                          vr_expectedRPID := rpID;
                          vr_expectedOrigin := ORIGIN;
                          vr_requireUserVerification := true |}) ;;
             match reg_verified verification, registrationInfo verification with
             | true, Some info =>
                 (userDB_set userId
                    {| username := username userRecord;
                       credentials :=
                         {| credentialID :=
                              uint8ArrayToBase64Url (ri_credentialID info);
                            publicKey :=
                              uint8ArrayToBase64Url (ri_credentialPublicKey info);
                            counter := ri_counter info |} |} ;;;
                  registrationChallengeMap_delete userId ;;;
                  ret (json RegistrationVerified))
             | _, _ =>
                 ret (json_status (ErrorBody "Registration not verified") 400)
             end)
            (fun err =>
               (console_log ("verify-registration error " +:+ message err) ;;;
                ret (json_status (ErrorBody (message err)) 400)))
      end
  end.

(** GET /generate-login-options *)
Definition generate_login_options (challenge : string) : JS Response :=
  let options :=
    {| ao_challenge := challenge;
       ao_rpID := rpID;
       ao_userVerification := "required" |} in
  (console_log ("options " +:+ ao_challenge options) ;;;
   loginChallengeMap_set (ao_challenge options) true ;;;
   ret (json (AuthenticationOptionsBody options))).

(** POST /verify-login *)
Definition verify_login (credential : AuthenticationResponseJSON)
    (challenge : string) : JS Response :=
  known <- loginChallengeMap_has challenge ;;
  if negb known
  then ret (json_status (ErrorBody "Challenge not found or expired") 400)
  else
    let userId := userHandle (auth_response credential) in
    match JsString.truthy userId with
    | None => ret (json_status (ErrorBody "UserId Not Found") 400)
    | Some userId =>
        found <- userDB_get userId ;;
        match found with
        | None => ret (json_status (ErrorBody "User Not Found") 400)
        | Some userRecord =>
            try_catch
              (credentialID <-
                 base64urlToUint8Array (credentialID (credentials userRecord)) ;;
               credentialPublicKey <-
                 base64urlToUint8Array (publicKey (credentials userRecord)) ;;
               verification <-
                 lift (verifyAuthenticationResponse
                         {| va_response := credential;
                            va_expectedChallenge := challenge;
                            va_expectedRPID := rpID;
                            va_expectedOrigin := ORIGIN;
                            va_authenticator :=
                              {| ad_credentialID := credentialID;
                                 ad_credentialPublicKey := credentialPublicKey;
                                 ad_counter :=
                                   counter (credentials userRecord) |} |}) ;;
               match auth_verified verification,
                     authenticationInfo verification with
               | true, Some info =>
                   (userRecord_set_counter userId (newCounter info) ;;;
                    loginChallengeMap_delete challenge ;;;
                    coords <-
                      parseCoseP256Key (publicKey (credentials userRecord)) ;;
                    ret (json (LoginVerified (xHex coords) (yHex coords))))
               | _, _ =>
                   ret (json_status (ErrorBody "Login not verified") 400)
               end)
              (fun err =>
                 (console_log ("verify-login error: " +:+ message err) ;;;
                  ret (json_status (ErrorBody (message err)) 400)))
        end
    end.

(** The routes of the application. *)
Definition handle (r : Request) : JS Response :=
  match r with
  | GenerateRegistrationOptions userName uuid challenge =>
      generate_registration_options userName uuid challenge
  | VerifyRegistration userId credential =>
      verify_registration userId credential
  | GenerateLoginOptions challenge => generate_login_options challenge
  | VerifyLogin credential challenge => verify_login credential challenge
  end.

(** The world after a sequence of requests, served one after the other. *)
Fixpoint serve (requests : list Request) (w : World) : World :=
  match requests with
  | [] => w
  | r :: rest => serve rest (fst (handle r w))
  end.

End Server.

(** ** The encoder of the application screen

    [btoa] on a text of code units below 256 is the base64 of those bytes;
    the screen builds such a text from the bytes with [String.fromCharCode]. *)

Definition btoa (str : string) : string :=
  Base64.encode (list_byte_of_string str).

Definition bufferToBase64URLString (buffer : list byte) : string :=
  let bytes := buffer in
  let str := string_of_list_byte bytes in
  let base64String := btoa str in
  JsString.remove_all "="
    (JsString.replace_all "/" "_" (JsString.replace_all "+" "-" base64String)).

(** ** The first server of the file: one map from user to public key

    [POST /register] and [POST /login] on the module-level [db].  The body
    of a request has passed its validator, so its fields are strings.  The
    signer of the token is a parameter. *)

Module Simple.

Inductive ReplyBody : Type :=
| ErrorReply (error : string)
| MessageReply (message : string)
| TokenReply (token : string).

Record Reply : Type := { reply_body : ReplyBody; reply_status : N }.

Inductive Request : Type :=
| Register (userId publicKey : string)
| Login (userId : string).

Section Routes.

(** [c.jwt.sign({ userId })] *)
Variable jwt_sign : string -> Completion string.

Definition register (userId publicKey : string) (db : gmap string string)
  : gmap string string * Completion Reply :=
  match db !! userId with
  | Some _ =>
      (db, Normal {| reply_body := ErrorReply "User already exists";
                     reply_status := 400 |})
  | None =>
      (<[userId := publicKey]> db,
       Normal {| reply_body := MessageReply "Passkey registered successfully";
                 reply_status := 201 |})
  end.

Definition login (userId : string) (db : gmap string string)
  : gmap string string * Completion Reply :=
  match db !! userId with
  | None =>
      (db, Normal {| reply_body := ErrorReply "User not found";
                     reply_status := 404 |})
  | Some publicKey =>
      match jwt_sign userId with
      | Normal token =>
          (db, Normal {| reply_body := TokenReply token; reply_status := 200 |})
      | Thrown e => (db, Thrown e)
      end
  end.

Definition handle (r : Request) (db : gmap string string)
  : gmap string string * Completion Reply :=
  match r with
  | Register userId publicKey => register userId publicKey db
  | Login userId => login userId db
  end.

Fixpoint serve (requests : list Request) (db : gmap string string)
  : gmap string string :=
  match requests with
  | [] => db
  | r :: rest => serve rest (fst (handle r db))
  end.

End Routes.

(** The key of the first [Register] request for [userId] in a sequence. *)
Fixpoint first_key (userId : string) (requests : list Request) : option string :=
  match requests with
  | [] => None
  | Register u k :: rest =>
      if String.eqb u userId then Some k else first_key userId rest
  | Login _ :: rest => first_key userId rest
  end.

End Simple.

(** ** The counter rule of the verifier

    [verify_login] hands the stored counter to [verifyAuthenticationResponse]
    and stores the [newCounter] it gets back; the comparison itself is made
    inside the library. *)

(** Modelled from the spec: the source of [verifyAuthenticationResponse] is
    not part of the repository.  The counter the response reports must be
    strictly greater than the stored one unless both are zero. *)
Definition counter_accepted (reported stored : N) : bool :=
  (stored <? reported) || ((reported =? 0) && (stored =? 0)).

(** Modelled from the spec: the error of a counter that did not advance
    ([ReplayDetectedError]). *)
Definition ReplayDetectedError (reported stored : N) : JsError :=
  Error ("Response counter value " +:+ decimal reported
         +:+ " was lower than expected " +:+ decimal stored).

(** Modelled from the spec: what the handler relies on from the verifier,
    for a given reading [reported] of the counter in an assertion. *)
Definition checks_counter `{WebAuthnServer}
    (reported : AuthenticationResponseJSON -> N) : Prop :=
  forall opts : VerifyAuthenticationResponseOpts,
    let r := reported (va_response opts) in
    let n := ad_counter (va_authenticator opts) in
    (counter_accepted r n = false ->
     verifyAuthenticationResponse opts = Thrown (ReplayDetectedError r n))
    /\ (forall v info,
          verifyAuthenticationResponse opts = Normal v ->
          authenticationInfo v = Some info ->
          newCounter info = r).

(** ** Reference libraries

    Small executable stand-ins for the libraries, used to run the model on
    concrete requests and keys. *)

Module Reference.

(** Big-endian number of a byte string. *)
Definition be (bytes : list byte) : N :=
  fold_left (fun acc b => acc * 256 + Byte.to_N b) bytes 0.

Definition take_bytes (n : N) (bs : list byte) : option (list byte * list byte) :=
  if n <=? N.of_nat (List.length bs)
  then Some (firstn (N.to_nat n) bs, skipn (N.to_nat n) bs)
  else None.

(** *** CBOR: definite-length items of RFC 8949 *)

Definition cbor_argument (info : N) (bs : list byte) : option (N * list byte) :=
  if info <? 24 then Some (info, bs)
  else
    let width := if info =? 24 then Some 1 else if info =? 25 then Some 2
                 else if info =? 26 then Some 4 else if info =? 27 then Some 8
                 else None in
    match width with
    | Some k =>
        match take_bytes k bs with
        | Some (arg, rest) => Some (be arg, rest)
        | None => None
        end
    | None => None
    end.

Fixpoint pair_up (l : list JsValue) : list (JsValue * JsValue) :=
  match l with
  | k :: v :: rest => (k, v) :: pair_up rest
  | _ => []
  end.

Definition string_key (e : JsValue * JsValue) : option (string * JsValue) :=
  match e with
  | (JsStr k, v) => Some (k, v)
  | _ => None
  end.

(** A map all of whose keys are text becomes a plain object, any other map
    a [Map]. *)
Definition cbor_map (entries : list (JsValue * JsValue)) : JsValue :=
  match entries with
  | [] => JsObject []
  | _ =>
      if forallb (fun e => match string_key e with Some _ => true | None => false end)
           entries
      then JsObject (omap string_key entries)
      else JsMap entries
  end.

Fixpoint cbor_item (fuel : nat) (bs : list byte) : option (JsValue * list byte) :=
  match fuel, bs with
  | S fuel', b :: rest =>
      let items :=
        fix items (n : nat) (bs : list byte) : option (list JsValue * list byte) :=
          match n with
          | O => Some ([], bs)
          | S n' =>
              match cbor_item fuel' bs with
              | Some (v, bs') =>
                  match items n' bs' with
                  | Some (vs, bs'') => Some (v :: vs, bs'')
                  | None => None
                  end
              | None => None
              end
          end in
      let major := Byte.to_N b / 32 in
      let info := Byte.to_N b mod 32 in
      if major =? 7 then
        if info =? 20 then Some (JsBool false, rest)
        else if info =? 21 then Some (JsBool true, rest)
        else if info =? 22 then Some (JsNull, rest)
        else if info =? 23 then Some (JsUndefined, rest)
        else None
      else
        match cbor_argument info rest with
        | None => None
        | Some (arg, rest) =>
            if major =? 0 then Some (JsNumber (Z.of_N arg), rest)
            else if major =? 1 then Some (JsNumber (-1 - Z.of_N arg), rest)
            else if major =? 2 then
              match take_bytes arg rest with
              | Some (content, rest) => Some (JsBuffer content, rest)
              | None => None
              end
            else if major =? 3 then
              match take_bytes arg rest with
              | Some (content, rest) => Some (JsStr (string_of_list_byte content), rest)
              | None => None
              end
            else if major =? 4 then
              match items (N.to_nat arg) rest with
              | Some (vs, rest) => Some (JsArray vs, rest)
              | None => None
              end
            else if major =? 5 then
              match items (N.to_nat (2 * arg)) rest with
              | Some (vs, rest) => Some (cbor_map (pair_up vs), rest)
              | None => None
              end
            else None
        end
  | _, _ => None
  end.

(** [cbor.decodeFirstSync]: one item and nothing after it. *)
Definition decodeFirstSync (bs : list byte) : Completion JsValue :=
  match cbor_item (S (List.length bs)) bs with
  | Some (v, []) => Normal v
  | Some (_, _ :: _) => Thrown (Error "Unexpected data")
  | None => Thrown (Error "Insufficient data")
  end.

(** *** DER: the blocks of a SubjectPublicKeyInfo *)

Definition der_length (bs : list byte) : option (N * list byte) :=
  match bs with
  | [] => None
  | b :: rest =>
      let l := Byte.to_N b in
      if l <? 128 then Some (l, rest)
      else
        match take_bytes (l - 128) rest with
        | Some (arg, rest) => if l =? 128 then None else Some (be arg, rest)
        | None => None
        end
  end.

Definition is_text_tag (number : N) : bool :=
  (number =? 12) || (number =? 19) || (number =? 22).

Fixpoint der_block (fuel : nat) (bs : list byte) : option (Asn1.Block * list byte) :=
  match fuel, bs with
  | S fuel', tag :: rest =>
      let blocks :=
        fix blocks (n : nat) (bs : list byte) : option (list Asn1.Block) :=
          match n, bs with
          | _, [] => Some []
          | O, _ :: _ => None
          | S n', _ :: _ =>
              match der_block fuel' bs with
              | Some (b, bs') =>
                  match blocks n' bs' with
                  | Some l => Some (b :: l)
                  | None => None
                  end
              | None => None
              end
          end in
      let constructed := Byte.to_N tag / 32 mod 2 =? 1 in
      let number := Byte.to_N tag mod 32 in
      match der_length rest with
      | None => None
      | Some (len, rest) =>
          match take_bytes len rest with
          | None => None
          | Some (content, rest) =>
              if constructed then
                match blocks (List.length content) content with
                | Some value => Some (Asn1.Sequence value, rest)
                | None => None
                end
              else if number =? 3 then
                match content with
                | _unusedBits :: valueHex => Some (Asn1.BitString valueHex [], rest)
                | [] => None
                end
              else if is_text_tag number
              then Some (Asn1.StringBlock (string_of_list_byte content), rest)
              else Some (Asn1.Primitive content, rest)
          end
      end
  | _, _ => None
  end.

(** [fromBER]: the first block and the offset after it, [-1] on failure. *)
Definition der_fromBER (bs : list byte) : Asn1.FromBerResult :=
  match der_block (S (List.length bs)) bs with
  | Some (b, rest) =>
      {| Asn1.offset := Z.of_nat (List.length bs - List.length rest);
         Asn1.result := b |}
  | None => {| Asn1.offset := (-1)%Z; Asn1.result := Asn1.Primitive [] |}
  end.

(** [Buffer.from] on a buffer and on a text of code units below 128. *)
Definition buffer_of_value (v : JsValue) : Completion (list byte) :=
  match v with
  | JsBuffer bytes => Normal bytes
  | JsStr s => Normal (list_byte_of_string s)
  | _ => Thrown (Error "The first argument must be of type string or an instance of Buffer, ArrayBuffer, or Array or an Array-like Object.")
  end.

#[export] Instance codec : CodecLibraries := {|
  fromBER := der_fromBER;
  cbor_decodeFirstSync := decodeFirstSync;
  Buffer_from := buffer_of_value;
  Buffer_from_buffer := fun bytes => eq_refl;
  keccak256 := fun hex => hex
|}.

(** *** Verifiers *)

(** The signature counter of an assertion: bytes 33 to 36 of its
    authenticator data, big-endian. *)
Definition signCount (response : AuthenticationResponseJSON) : N :=
  be (slice (Base64.Buffer_from_base64 (authenticatorData (auth_response response)))
        33 37).

(** A verifier that accepts every attestation carrying [info] and every
    assertion whose counter passes [counter_accepted]. *)
Definition accepting (info : RegistrationInfo) : WebAuthnServer := {|
  verifyRegistrationResponse := fun _ =>
    Normal {| reg_verified := true; registrationInfo := Some info |};
  verifyAuthenticationResponse := fun opts =>
    let r := signCount (va_response opts) in
    let n := ad_counter (va_authenticator opts) in
    if counter_accepted r n
    then Normal {| auth_verified := true;
                   authenticationInfo := Some {| newCounter := r |} |}
    else Thrown (ReplayDetectedError r n)
|}.

(** A verifier that rejects every response by throwing. *)
Definition rejecting : WebAuthnServer := {|
  verifyRegistrationResponse := fun _ => Thrown (Error "Unexpected registration response");
  verifyAuthenticationResponse := fun _ => Thrown (Error "Unexpected authentication response")
|}.

(** A verifier that returns with [verified] false. *)
Definition unverifying : WebAuthnServer := {|
  verifyRegistrationResponse := fun _ =>
    Normal {| reg_verified := false; registrationInfo := None |};
  verifyAuthenticationResponse := fun _ =>
    Normal {| auth_verified := false; authenticationInfo := None |}
|}.

End Reference.

(** ** Notions used to state the properties *)

(** The six-bit values that [Base64.encode] writes, before padding. *)
Fixpoint sextets_of_bytes (bs : list byte) : list N :=
  match bs with
  | [] => []
  | [b0] =>
      let n := Byte.to_N b0 * 16 in [n / 64; n mod 64]
  | [b0; b1] =>
      let n := (Byte.to_N b0 * 256 + Byte.to_N b1) * 4 in
      [n / 4096; n / 64 mod 64; n mod 64]
  | b0 :: b1 :: b2 :: rest =>
      let n := Byte.to_N b0 * 65536 + Byte.to_N b1 * 256 + Byte.to_N b2 in
      n / 262144 :: n / 4096 mod 64 :: n / 64 mod 64 :: n mod 64
        :: sextets_of_bytes rest
  end.

(** The number of ['='] that [Base64.encode] appends. *)
Fixpoint padding_of_bytes (bs : list byte) : nat :=
  match bs with
  | [] => 0
  | [_] => 2
  | [_; _] => 1
  | _ :: _ :: _ :: rest => padding_of_bytes rest
  end.

Definition text_of_sextets (l : list N) : string :=
  string_of_list_ascii (map Base64.char_of_sextet l).

(** Every character of a text satisfies [P]. *)
Fixpoint all_chars (P : ascii -> bool) (s : string) : bool :=
  match s with
  | EmptyString => true
  | String c s' => P c && all_chars P s'
  end.

(** The characters of the standard base64 alphabet. *)
Definition is_alphabet (c : ascii) : bool :=
  match Base64.sextet_of_char c with Some _ => true | None => false end.

(** The URL-safe substitution of the server and its inverse. *)
Definition to_url (s : string) : string :=
  JsString.replace_all "/" "_" (JsString.replace_all "+" "-" s).

Definition from_url (s : string) : string :=
  JsString.replace_all "_" "/" (JsString.replace_all "-" "+" s).

(** [map.has(n)] for a number key [n]. *)
Fixpoint Map_has (entries : list (JsValue * JsValue)) (n : Z) : bool :=
  match entries with
  | [] => false
  | (JsNumber k, _) :: rest => (k =? n)%Z || Map_has rest n
  | _ :: rest => Map_has rest n
  end.

(** The verdict of a verifier as the handlers read it: the information of
    a verified response, [None] when the verifier threw or did not verify. *)
Definition registration_accepted
    (c : Completion VerifiedRegistrationResponse) : option RegistrationInfo :=
  match c with
  | Normal v => if reg_verified v then registrationInfo v else None
  | Thrown _ => None
  end.

Definition authentication_accepted
    (c : Completion VerifiedAuthenticationResponse) : option AuthenticationInfo :=
  match c with
  | Normal v => if auth_verified v then authenticationInfo v else None
  | Thrown _ => None
  end.

(** The options with which the handlers call the verifiers. *)
Definition registration_opts (credential : RegistrationResponseJSON)
    (expectedChallenge : string) : VerifyRegistrationResponseOpts :=
  {| vr_response := credential;
     vr_expectedChallenge := expectedChallenge;
     vr_expectedRPID := rpID;
     vr_expectedOrigin := ORIGIN;
     vr_requireUserVerification := true |}.

Definition authentication_opts (credential : AuthenticationResponseJSON)
    (challenge : string) (credentialID credentialPublicKey : list byte)
    (storedCounter : N) : VerifyAuthenticationResponseOpts :=
  {| va_response := credential;
     va_expectedChallenge := challenge;
     va_expectedRPID := rpID;
     va_expectedOrigin := ORIGIN;
     va_authenticator :=
       {| ad_credentialID := credentialID;
          ad_credentialPublicKey := credentialPublicKey;
          ad_counter := storedCounter |} |}.

(** The credential texts of every stored user decode as base64url. *)
Definition credentials_decode (w : World) : Prop :=
  forall (userId : string) (userRecord : UserRecord),
    userDB w !! userId = Some userRecord ->
    exists idBytes keyBytes : list byte,
      forall w' : World,
        base64urlToUint8Array (credentialID (credentials userRecord)) w'
        = (w', Normal idBytes)
        /\ base64urlToUint8Array (publicKey (credentials userRecord)) w'
           = (w', Normal keyBytes).

(** The credential texts of every stored user are what
    [uint8ArrayToBase64Url] writes for some bytes. *)
Definition credentials_encoded (w : World) : Prop :=
  forall (userId : string) (userRecord : UserRecord),
    userDB w !! userId = Some userRecord ->
    exists idBytes keyBytes : list byte,
      credentialID (credentials userRecord) = uint8ArrayToBase64Url idBytes
      /\ publicKey (credentials userRecord) = uint8ArrayToBase64Url keyBytes.

(** The record that [generate_registration_options] stores for a new user. *)
Definition placeholder (userName : string) : UserRecord :=
  {| username := userName;
     credentials := {| credentialID := ""; publicKey := ""; counter := 0 |} |}.

(** The requests that can change what is stored for a user or a challenge. *)
Definition verifies_registration_of (userId : string) (r : Request) : bool :=
  match r with
  | VerifyRegistration u _ => String.eqb u userId
  | _ => false
  end.

Definition issues_registration_for (userId : string) (r : Request) : bool :=
  match r with
  | GenerateRegistrationOptions _ uuid _ => String.eqb uuid userId
  | _ => false
  end.

Definition verifies_login_with (challenge : string) (r : Request) : bool :=
  match r with
  | VerifyLogin _ c => String.eqb c challenge
  | _ => false
  end.

(** Every pending registration challenge belongs to a stored user. *)
Definition challenges_have_users (w : World) : Prop :=
  forall userId : string,
    registrationChallengeMap w !! userId <> None -> userDB w !! userId <> None.

(** The world before any request. *)
Definition initial_world : World :=
  {| userDB := ∅;
     registrationChallengeMap := ∅;
     loginChallengeMap := ∅;
     console := [] |}.

(** ** Sample requests and worlds *)

Module Sample.

(** A COSE EC2 key of P-256: [{1: 2, 3: -7, -1: 1, -2: x, -3: y}]. *)
Definition ec2_key : string :=
  "pQECAyYgASFYICUSTvmR-wtrJXdpteEHfX61yV37NnvCjV5aX8FzcRx_IlggTmgTCCu0t6_04jZSJ9OS6A-nlNFspRjSMjHRRMvMYOQ".

(** A COSE OKP key of Ed25519: [{1: 1, 3: -8, -1: 6, -2: x}], no label -3. *)
Definition okp_key : string :=
  "pAEBAycgBiFYIAABAgMEBQYHCAkKCwwNDg8QERITFBUWFxgZGhscHR4f".

(** Authenticator data with signature counter 1 and 5:
    32 bytes of RP hash, the flags, the counter. *)
Definition data_counter_1 : string :=
  "AAAAAAAAAAAAAAAAAAAAAAAAAAAAAAAAAAAAAAAAAAAFAAAAAQ".
Definition data_counter_5 : string :=
  "AAAAAAAAAAAAAAAAAAAAAAAAAAAAAAAAAAAAAAAAAAAFAAAABQ".

Definition assertion (authenticatorData : string) : AuthenticationResponseJSON :=
  {| auth_id := "AQIDBA";
     auth_rawId := "AQIDBA";
     auth_response :=
       {| clientDataJSON := "";
          authenticatorData := authenticatorData;
          signature := "";
          userHandle := Some "user-1" |} |}.

Definition attestation : RegistrationResponseJSON :=
  {| reg_id := "AQIDBA";
     reg_rawId := "AQIDBA";
     reg_response :=
       {| att_clientDataJSON := "";
          att_attestationObject := "";
          att_publicKey := None |} |}.

(** What a verified attestation of the key [ec2_key] carries. *)
Definition info : RegistrationInfo :=
  {| ri_credentialID := [Byte.x01; Byte.x02; Byte.x03; Byte.x04];
     ri_credentialPublicKey := Base64.Buffer_from_base64 ec2_key;
     ri_counter := 0 |}.

(** A world with one registered user, one pending registration challenge
    and one outstanding login challenge. *)
Definition world (key : string) (stored : N) : World :=
  {| userDB :=
       {[ "user-1" :=
            {| username := "alice";
               credentials :=
                 {| credentialID := "AQIDBA";
                    publicKey := key;
                    counter := stored |} |} ]};
     registrationChallengeMap := {[ "user-1" := "registration-challenge" ]};
     loginChallengeMap := {[ "login-challenge" := true ]};
     console := [] |}.

(** The SubjectPublicKeyInfo quoted in [parseCred], and the same point
    behind an empty algorithm identifier and followed by one more byte. *)
Definition spki_key : string :=
  "MFkwEwYHKoZIzj0CAQYIKoZIzj0DAQcDQgAEJRJO-ZH7C2sld2m14Qd9frXJXfs2e8KNXlpfwXNxHH9OaBMIK7S3r_TiNlIn05LoD6eU0WylGNIyMdFEy8xg5A".
Definition spki_key_without_algorithm : string :=
  "MEcwAANDAAQlEk75kfsLayV3abXhB31+tcld+zZ7wo1eWl/Bc3Ecf05oEwgrtLev9OI2UifTkugPp5TRbKUY0jIx0UTLzGDk/w==".

(** The CBOR map [{-2: x, -3: y}] with the coordinates of [ec2_key]. *)
Definition bare_key : string :=
  "oiFYICUSTvmR-wtrJXdpteEHfX61yV37NnvCjV5aX8FzcRx_IlggTmgTCCu0t6_04jZSJ9OS6A-nlNFspRjSMjHRRMvMYOQ".

(** A registration response as the client receives it, with its key. *)
Definition creation : RegistrationResponseJSON :=
  {| reg_id := "AQIDBA";
     reg_rawId := "AQIDBA";
     reg_response :=
       {| att_clientDataJSON := "";
          att_attestationObject := "";
          att_publicKey := Some spki_key |} |}.

End Sample.

(** * Properties *)

Example base64_encode_foobar :
  Base64.encode (list_byte_of_string "foobar") = "Zm9vYmFy"
  /\ Base64.encode (list_byte_of_string "fooba") = "Zm9vYmE="
  /\ Base64.encode (list_byte_of_string "foob") = "Zm9vYg==".
Proof. repeat split; reflexivity. Qed.

Example atob_foob :
  Base64.atob "Zm9vYg==" = Some "foob" /\ Base64.atob "Zm9vYmE" = Some "fooba"
  /\ Base64.atob "Zm9vY" = None /\ Base64.atob "Zm9v-g==" = None.
Proof. repeat split; reflexivity. Qed.

Example hex_encode_bytes :
  Hex.encode [Byte.x00; Byte.x0a; Byte.xff] = "000aff".
Proof. reflexivity. Qed.

(** ** Arithmetic of the base64 groups *)

Lemma byte_of_N_to_N (b : byte) : byte_of_N (Byte.to_N b) = b.
Proof.
  unfold byte_of_N.
  rewrite N.mod_small by (pose proof (Byte.to_N_bounded b); lia).
  now rewrite Byte.of_to_N.
Qed.

Lemma byte_of_N_eq (n : N) (b : byte) :
  n mod 256 = Byte.to_N b -> byte_of_N n = b.
Proof.
  intros E. rewrite <- (byte_of_N_to_N b). unfold byte_of_N.
  rewrite E. rewrite N.mod_small by (pose proof (Byte.to_N_bounded b); lia).
  reflexivity.
Qed.

Lemma regroup_two (n : N) : n / 64 * 64 + n mod 64 = n.
Proof. rewrite (N.div_mod n 64) at 3 by lia. lia. Qed.

Lemma regroup_three (n : N) :
  (n / 4096 * 64 + n / 64 mod 64) * 64 + n mod 64 = n.
Proof.
  replace (n / 4096) with (n / 64 / 64)
    by (rewrite N.Div0.div_div; reflexivity).
  rewrite regroup_two. apply regroup_two.
Qed.

Lemma regroup_four (n : N) :
  ((n / 262144 * 64 + n / 4096 mod 64) * 64 + n / 64 mod 64) * 64 + n mod 64
  = n.
Proof.
  replace (n / 262144) with (n / 64 / 4096)
    by (rewrite N.Div0.div_div; reflexivity).
  replace (n / 4096) with (n / 64 / 64)
    by (rewrite N.Div0.div_div; reflexivity).
  rewrite regroup_three. apply regroup_two.
Qed.

Lemma decode_group_of_three (b0 b1 b2 : byte) (rest : list N) :
  Base64.decode_sextets
    (let n := Byte.to_N b0 * 65536 + Byte.to_N b1 * 256 + Byte.to_N b2 in
     n / 262144 :: n / 4096 mod 64 :: n / 64 mod 64 :: n mod 64 :: rest)
  = b0 :: b1 :: b2 :: Base64.decode_sextets rest.
Proof.
  pose proof (Byte.to_N_bounded b0) as H0.
  pose proof (Byte.to_N_bounded b1) as H1.
  pose proof (Byte.to_N_bounded b2) as H2.
  cbv zeta. cbn [Base64.decode_sextets]. cbv zeta.
  rewrite regroup_four.
  set (x0 := Byte.to_N b0) in *. set (x1 := Byte.to_N b1) in *.
  set (x2 := Byte.to_N b2) in *.
  assert (E1 : (x0 * 65536 + x1 * 256 + x2) / 65536 = x0)
    by (symmetry; apply N.div_unique with (r := x1 * 256 + x2); lia).
  assert (E2 : (x0 * 65536 + x1 * 256 + x2) / 256 = x0 * 256 + x1)
    by (symmetry; apply N.div_unique with (r := x2); lia).
  rewrite E1, E2.
  f_equal; [|f_equal; [|f_equal]]; apply byte_of_N_eq; fold x0 x1 x2.
  - apply N.mod_small; lia.
  - symmetry; apply N.mod_unique with (q := x0); lia.
  - symmetry; apply N.mod_unique with (q := x0 * 256 + x1); lia.
Qed.

Lemma decode_group_of_two (b0 b1 : byte) :
  Base64.decode_sextets (sextets_of_bytes [b0; b1]) = [b0; b1].
Proof.
  pose proof (Byte.to_N_bounded b0) as H0.
  pose proof (Byte.to_N_bounded b1) as H1.
  cbn [sextets_of_bytes Base64.decode_sextets]. cbv zeta.
  rewrite regroup_three.
  set (x0 := Byte.to_N b0) in *. set (x1 := Byte.to_N b1) in *.
  assert (E1 : (x0 * 256 + x1) * 4 / 4 = x0 * 256 + x1)
    by (symmetry; apply N.div_unique with (r := 0); lia).
  assert (E2 : (x0 * 256 + x1) / 256 = x0)
    by (symmetry; apply N.div_unique with (r := x1); lia).
  rewrite E1, E2.
  f_equal; [|f_equal]; apply byte_of_N_eq; fold x0 x1.
  - apply N.mod_small; lia.
  - symmetry; apply N.mod_unique with (q := x0); lia.
Qed.

Lemma decode_group_of_one (b0 : byte) :
  Base64.decode_sextets (sextets_of_bytes [b0]) = [b0].
Proof.
  cbn [sextets_of_bytes Base64.decode_sextets]. cbv zeta.
  rewrite regroup_two.
  assert (E1 : Byte.to_N b0 * 16 / 16 = Byte.to_N b0)
    by (symmetry; apply N.div_unique with (r := 0); lia).
  rewrite E1. f_equal. apply byte_of_N_to_N.
Qed.

(** Induction on a byte array three bytes at a time, as the encoder reads. *)
Lemma bytes_ind3 (P : list byte -> Prop) :
  P [] -> (forall b0, P [b0]) -> (forall b0 b1, P [b0; b1]) ->
  (forall b0 b1 b2 rest, P rest -> P (b0 :: b1 :: b2 :: rest)) ->
  forall bs, P bs.
Proof.
  intros H0 H1 H2 H3.
  fix IH 1.
  intros [|b0 [|b1 [|b2 rest]]];
    [apply H0 | apply H1 | apply H2 | apply H3; apply IH].
Qed.

Lemma decode_sextets_of_bytes (bs : list byte) :
  Base64.decode_sextets (sextets_of_bytes bs) = bs.
Proof.
  induction bs as [|b0|b0 b1|b0 b1 b2 rest IH] using bytes_ind3.
  - reflexivity.
  - apply decode_group_of_one.
  - apply decode_group_of_two.
  - change (sextets_of_bytes (b0 :: b1 :: b2 :: rest))
      with (let n := Byte.to_N b0 * 65536 + Byte.to_N b1 * 256 + Byte.to_N b2 in
            n / 262144 :: n / 4096 mod 64 :: n / 64 mod 64 :: n mod 64
              :: sextets_of_bytes rest).
    rewrite decode_group_of_three. now rewrite IH.
Qed.

Lemma sextets_of_bytes_bounded (bs : list byte) :
  Forall (fun v => v < 64) (sextets_of_bytes bs).
Proof.
  induction bs as [|b0|b0 b1|b0 b1 b2 rest IH] using bytes_ind3.
  - constructor.
  - pose proof (Byte.to_N_bounded b0).
    cbn [sextets_of_bytes]. cbv zeta.
    repeat constructor;
      [apply N.Div0.div_lt_upper_bound; lia | apply N.mod_lt; lia].
  - pose proof (Byte.to_N_bounded b0). pose proof (Byte.to_N_bounded b1).
    cbn [sextets_of_bytes]. cbv zeta.
    repeat constructor;
      [apply N.Div0.div_lt_upper_bound; lia | apply N.mod_lt; lia ..].
  - pose proof (Byte.to_N_bounded b0). pose proof (Byte.to_N_bounded b1).
    pose proof (Byte.to_N_bounded b2).
    cbn [sextets_of_bytes]. cbv zeta.
    repeat (constructor; [|]); try exact IH;
      [apply N.Div0.div_lt_upper_bound; lia | apply N.mod_lt; lia ..].
Qed.

(** ** The base64 alphabet *)

Lemma sextet_of_char_of_sextet (v : N) :
  v < 64 -> Base64.sextet_of_char (Base64.char_of_sextet v) = Some v.
Proof.
  intros Hv. destruct v as [|p]; [reflexivity|].
  do 6 (try destruct p as [p|p|]); try reflexivity; lia.
Qed.

Lemma char_of_sextet_alphabet (v : N) :
  v < 64 -> is_alphabet (Base64.char_of_sextet v) = true.
Proof.
  intros Hv. unfold is_alphabet. now rewrite sextet_of_char_of_sextet.
Qed.

(** What the alphabet excludes, and how the URL-safe substitution acts on it. *)
Lemma alphabet_char_facts (c : ascii) :
  is_alphabet c = true ->
  Ascii.eqb c "=" = false
  /\ Base64.is_ascii_whitespace c = false
  /\ (let u := if Ascii.eqb (if Ascii.eqb c "+" then "-"%char else c) "/"
               then "_"%char
               else if Ascii.eqb c "+" then "-"%char else c in
      Ascii.eqb u "=" = false
      /\ (if Ascii.eqb (if Ascii.eqb u "-" then "+"%char else u) "_"
          then "/"%char
          else if Ascii.eqb u "-" then "+"%char else u) = c
      /\ Base64.sextet_of_char_lenient u = Base64.sextet_of_char c).
Proof.
  destruct c as [[] [] [] [] [] [] [] []]; intros E;
    solve [discriminate E | repeat split; reflexivity].
Qed.

(** ** Texts *)

Lemma length_append (s t : string) :
  String.length (s +:+ t) = (String.length s + String.length t)%nat.
Proof. induction s as [|c s IH]; simpl; [reflexivity | now f_equal]. Qed.

Lemma length_repeat_eq (k : nat) : String.length (JsString.repeat_eq k) = k.
Proof. induction k as [|k IH]; simpl; [reflexivity | now f_equal]. Qed.

Lemma length_replace_all (c d : ascii) (s : string) :
  String.length (JsString.replace_all c d s) = String.length s.
Proof. induction s as [|a s IH]; simpl; [reflexivity | now f_equal]. Qed.

Lemma replace_all_append (c d : ascii) (s t : string) :
  JsString.replace_all c d (s +:+ t)
  = JsString.replace_all c d s +:+ JsString.replace_all c d t.
Proof. induction s as [|a s IH]; simpl; [reflexivity | now rewrite IH]. Qed.

Lemma replace_all_repeat_eq (c d : ascii) (k : nat) :
  Ascii.eqb "=" c = false ->
  JsString.replace_all c d (JsString.repeat_eq k) = JsString.repeat_eq k.
Proof.
  intros E. induction k as [|k IH]; [reflexivity|].
  cbn [JsString.repeat_eq JsString.replace_all]. now rewrite E, IH.
Qed.

Lemma length_text_of_sextets (l : list N) :
  String.length (text_of_sextets l) = List.length l.
Proof.
  unfold text_of_sextets.
  induction l as [|v l IH]; simpl; [reflexivity | now f_equal].
Qed.

Lemma all_chars_append (P : ascii -> bool) (s t : string) :
  all_chars P (s +:+ t) = all_chars P s && all_chars P t.
Proof.
  induction s as [|c s IH]; [reflexivity|].
  simpl. rewrite IH. now rewrite andb_assoc.
Qed.

Lemma all_chars_text_of_sextets (l : list N) :
  Forall (fun v => v < 64) l -> all_chars is_alphabet (text_of_sextets l) = true.
Proof.
  unfold text_of_sextets.
  induction 1 as [|v l Hv _ IH]; [reflexivity|].
  cbn [map string_of_list_ascii all_chars].
  now rewrite char_of_sextet_alphabet, IH.
Qed.

Lemma sextets_strict_text_of_sextets (l : list N) :
  Forall (fun v => v < 64) l ->
  Base64.sextets_strict (text_of_sextets l) = Some l.
Proof.
  unfold text_of_sextets.
  induction 1 as [|v l Hv _ IH]; [reflexivity|].
  cbn [map string_of_list_ascii Base64.sextets_strict].
  now rewrite sextet_of_char_of_sextet, IH.
Qed.

Lemma from_url_to_url (t : string) :
  all_chars is_alphabet t = true -> from_url (to_url t) = t.
Proof.
  unfold from_url, to_url.
  induction t as [|c t IH]; [reflexivity|].
  cbn [JsString.replace_all all_chars].
  intros E. apply andb_prop in E as [Ec Et].
  destruct (alphabet_char_facts c Ec) as (_ & _ & _ & Hc & _).
  rewrite Hc. now rewrite IH.
Qed.

Lemma to_url_no_eq (t : string) :
  all_chars is_alphabet t = true ->
  all_chars (fun c => negb (Ascii.eqb c "=")) (to_url t) = true.
Proof.
  unfold to_url.
  induction t as [|c t IH]; [reflexivity|].
  cbn [JsString.replace_all all_chars].
  intros E. apply andb_prop in E as [Ec Et].
  destruct (alphabet_char_facts c Ec) as (_ & _ & Hc & _ & _).
  rewrite Hc. cbn [negb andb]. now apply IH.
Qed.

Lemma strip_trailing_eq_repeat (k : nat) :
  JsString.strip_trailing_eq (JsString.repeat_eq k) = EmptyString.
Proof. induction k as [|k IH]; simpl; [reflexivity | now rewrite IH]. Qed.

Lemma strip_trailing_eq_padding (t : string) (k : nat) :
  all_chars (fun c => negb (Ascii.eqb c "=")) t = true ->
  JsString.strip_trailing_eq (t +:+ JsString.repeat_eq k) = t.
Proof.
  induction t as [|c t IH].
  - intros _. apply strip_trailing_eq_repeat.
  - intros E. apply andb_prop in E as [Ec Et].
    change (String c t +:+ JsString.repeat_eq k)
      with (String c (t +:+ JsString.repeat_eq k)).
    cbn [JsString.strip_trailing_eq]. rewrite (IH Et).
    apply negb_true_iff in Ec. rewrite Ec. now destruct t.
Qed.

(** ** The shape of an encoded text *)

Lemma encode_shape (bs : list byte) :
  Base64.encode bs
  = text_of_sextets (sextets_of_bytes bs)
    +:+ JsString.repeat_eq (padding_of_bytes bs).
Proof.
  induction bs as [|b0|b0 b1|b0 b1 b2 rest IH] using bytes_ind3;
    try reflexivity.
  cbn [Base64.encode sextets_of_bytes padding_of_bytes]. cbv zeta.
  rewrite IH. reflexivity.
Qed.

(** Four characters per group: the padding is what is missing to a
    multiple of four, and is never three characters. *)
Lemma padding_of_length (bs : list byte) :
  exists j : nat,
    (List.length (sextets_of_bytes bs) = 4 * j /\ padding_of_bytes bs = 0
     \/ List.length (sextets_of_bytes bs) = 4 * j + 2 /\ padding_of_bytes bs = 2
     \/ List.length (sextets_of_bytes bs) = 4 * j + 3 /\ padding_of_bytes bs = 1)%nat.
Proof.
  induction bs as [|b0|b0 b1|b0 b1 b2 rest IH] using bytes_ind3.
  - exists 0%nat. left. split; reflexivity.
  - exists 0%nat. right. left. split; reflexivity.
  - exists 0%nat. right. right. split; reflexivity.
  - destruct IH as [j IH]. exists (S j).
    cbn [sextets_of_bytes padding_of_bytes List.length]. cbv zeta.
    cbn [List.length]. lia.
Qed.

Lemma mod4_of_length (j r : nat) :
  (r < 4)%nat -> N.of_nat (4 * j + r) mod 4 = N.of_nat r.
Proof.
  intros Hr. symmetry. apply N.mod_unique with (q := N.of_nat j); lia.
Qed.

Lemma padding_recomputed (bs : list byte) :
  N.to_nat
    ((4 - JsString.length (to_url (text_of_sextets (sextets_of_bytes bs))) mod 4)
     mod 4)
  = padding_of_bytes bs.
Proof.
  unfold JsString.length, to_url.
  rewrite !length_replace_all, length_text_of_sextets.
  destruct (padding_of_length bs) as [j [[E K]|[[E K]|[E K]]]];
    rewrite E, K.
  - replace (4 * j)%nat with (4 * j + 0)%nat by lia.
    rewrite mod4_of_length by lia. reflexivity.
  - rewrite mod4_of_length by lia. reflexivity.
  - rewrite mod4_of_length by lia. reflexivity.
Qed.

Lemma uint8ArrayToBase64Url_shape (bs : list byte) :
  uint8ArrayToBase64Url bs = to_url (text_of_sextets (sextets_of_bytes bs)).
Proof.
  unfold uint8ArrayToBase64Url. rewrite encode_shape.
  fold (to_url (text_of_sextets (sextets_of_bytes bs)
                +:+ JsString.repeat_eq (padding_of_bytes bs))).
  unfold to_url at 1. rewrite !replace_all_append.
  rewrite !replace_all_repeat_eq by reflexivity.
  fold (to_url (text_of_sextets (sextets_of_bytes bs))).
  apply strip_trailing_eq_padding, to_url_no_eq, all_chars_text_of_sextets,
    sextets_of_bytes_bounded.
Qed.

(** Padding a URL-safe text back and undoing the substitution gives the
    text [Base64.encode] wrote. *)
Lemma from_url_padded (bs : list byte) :
  from_url (to_url (text_of_sextets (sextets_of_bytes bs))
            +:+ JsString.repeat_eq (padding_of_bytes bs))
  = Base64.encode bs.
Proof.
  unfold from_url. rewrite !replace_all_append.
  rewrite !replace_all_repeat_eq by reflexivity.
  fold (from_url (to_url (text_of_sextets (sextets_of_bytes bs)))).
  rewrite from_url_to_url
    by apply all_chars_text_of_sextets, sextets_of_bytes_bounded.
  symmetry. apply encode_shape.
Qed.

(** ** [atob] on an encoded text *)

Lemma all_chars_impl (P Q : ascii -> bool) (s : string) :
  (forall c, P c = true -> Q c = true) ->
  all_chars P s = true -> all_chars Q s = true.
Proof.
  intros HPQ. induction s as [|c s IH]; [reflexivity|].
  cbn [all_chars]. intros E. apply andb_prop in E as [Ec Es].
  now rewrite (HPQ c Ec), IH.
Qed.

Lemma all_chars_repeat_eq (P : ascii -> bool) (k : nat) :
  P "="%char = true -> all_chars P (JsString.repeat_eq k) = true.
Proof.
  intros E. induction k as [|k IH]; [reflexivity|].
  cbn [JsString.repeat_eq all_chars]. now rewrite E, IH.
Qed.

Lemma remove_whitespace_none (s : string) :
  all_chars (fun c => negb (Base64.is_ascii_whitespace c)) s = true ->
  Base64.remove_whitespace s = s.
Proof.
  induction s as [|c s IH]; [reflexivity|].
  cbn [all_chars Base64.remove_whitespace].
  intros E. apply andb_prop in E as [Ec Es].
  apply negb_true_iff in Ec. now rewrite Ec, IH.
Qed.

Lemma drop_padding_cons (c : ascii) (s : string) :
  Ascii.eqb c "=" = false ->
  Base64.drop_padding (String c s) = String c (Base64.drop_padding s).
Proof.
  destruct c as [[] [] [] [] [] [] [] []]; intros E;
    solve [discriminate E | reflexivity].
Qed.

Lemma drop_padding_encoded (t : string) (k : nat) :
  (k <= 2)%nat ->
  all_chars (fun c => negb (Ascii.eqb c "=")) t = true ->
  Base64.drop_padding (t +:+ JsString.repeat_eq k) = t.
Proof.
  intros Hk. induction t as [|c t IH].
  - intros _. destruct k as [|[|[|k]]]; [reflexivity .. | lia].
  - cbn [all_chars]. intros E. apply andb_prop in E as [Ec Et].
    apply negb_true_iff in Ec.
    change (String c t +:+ JsString.repeat_eq k)
      with (String c (t +:+ JsString.repeat_eq k)).
    rewrite drop_padding_cons by exact Ec. now rewrite IH.
Qed.

Lemma text_of_sextets_no_eq (l : list N) :
  Forall (fun v => v < 64) l ->
  all_chars (fun c => negb (Ascii.eqb c "=")) (text_of_sextets l) = true.
Proof.
  intros Hl. apply all_chars_impl with (P := is_alphabet).
  - intros c Hc. destruct (alphabet_char_facts c Hc) as (E & _). now rewrite E.
  - now apply all_chars_text_of_sextets.
Qed.

Lemma text_of_sextets_no_whitespace (l : list N) :
  Forall (fun v => v < 64) l ->
  all_chars (fun c => negb (Base64.is_ascii_whitespace c)) (text_of_sextets l)
  = true.
Proof.
  intros Hl. apply all_chars_impl with (P := is_alphabet).
  - intros c Hc. destruct (alphabet_char_facts c Hc) as (_ & E & _).
    now rewrite E.
  - now apply all_chars_text_of_sextets.
Qed.

Lemma atob_encode (bs : list byte) :
  Base64.atob (Base64.encode bs) = Some (string_of_list_byte bs).
Proof.
  pose proof (sextets_of_bytes_bounded bs) as Hb.
  unfold Base64.atob. rewrite encode_shape.
  rewrite remove_whitespace_none.
  2:{ rewrite all_chars_append, text_of_sextets_no_whitespace by exact Hb.
      now rewrite all_chars_repeat_eq. }
  assert (Hk : (padding_of_bytes bs <= 2)%nat)
    by (destruct (padding_of_length bs) as [j ?]; lia).
  assert (Hlen : JsString.length
                   (text_of_sextets (sextets_of_bytes bs)
                    +:+ JsString.repeat_eq (padding_of_bytes bs)) mod 4 = 0).
  { unfold JsString.length.
    rewrite length_append, length_text_of_sextets, length_repeat_eq.
    destruct (padding_of_length bs) as [j [[E K]|[[E K]|[E K]]]];
      rewrite E, K.
    - replace (4 * j + 0)%nat with (4 * j + 0)%nat by lia.
      now rewrite mod4_of_length by lia.
    - replace (4 * j + 2 + 2)%nat with (4 * S j + 0)%nat by lia.
      now rewrite mod4_of_length by lia.
    - replace (4 * j + 3 + 1)%nat with (4 * S j + 0)%nat by lia.
      now rewrite mod4_of_length by lia. }
  rewrite Hlen. cbn [N.eqb].
  rewrite drop_padding_encoded
    by (try exact Hk; apply text_of_sextets_no_eq; exact Hb).
  assert (Hne : (JsString.length (text_of_sextets (sextets_of_bytes bs)) mod 4
                 =? 1) = false).
  { unfold JsString.length. rewrite length_text_of_sextets.
    destruct (padding_of_length bs) as [j [[E K]|[[E K]|[E K]]]]; rewrite E.
    - replace (4 * j)%nat with (4 * j + 0)%nat by lia.
      now rewrite mod4_of_length by lia.
    - now rewrite mod4_of_length by lia.
    - now rewrite mod4_of_length by lia. }
  rewrite Hne.
  rewrite sextets_strict_text_of_sextets by exact Hb.
  now rewrite decode_sextets_of_bytes.
Qed.

Lemma base64urlToUint8Array_of_encoded (a : list byte) (w : World) :
  base64urlToUint8Array (uint8ArrayToBase64Url a) w = (w, Normal a).
Proof.
  unfold base64urlToUint8Array.
  rewrite uint8ArrayToBase64Url_shape, padding_recomputed.
  fold (from_url (to_url (text_of_sextets (sextets_of_bytes a))
                  +:+ JsString.repeat_eq (padding_of_bytes a))).
  rewrite from_url_padded, atob_encode.
  unfold ret. now rewrite list_byte_of_string_of_list_byte.
Qed.

(** The lenient reading of [Buffer.from(text, "base64")], which
    [parseCoseP256Key] applies to the stored public key, gives the same
    bytes back. *)
Lemma sextets_lenient_to_url (l : list N) :
  Forall (fun v => v < 64) l ->
  Base64.sextets_lenient (to_url (text_of_sextets l)) = l.
Proof.
  unfold to_url, text_of_sextets.
  induction 1 as [|v l Hv _ IH]; [reflexivity|].
  cbn [map string_of_list_ascii JsString.replace_all Base64.sextets_lenient].
  destruct (alphabet_char_facts _ (char_of_sextet_alphabet v Hv))
    as (_ & _ & Hne & _ & Hlen).
  rewrite Hne, Hlen, (sextet_of_char_of_sextet v Hv). now rewrite IH.
Qed.

Lemma Buffer_from_base64_of_encoded (a : list byte) :
  Base64.Buffer_from_base64 (uint8ArrayToBase64Url a) = a.
Proof.
  unfold Base64.Buffer_from_base64. rewrite uint8ArrayToBase64Url_shape.
  rewrite sextets_lenient_to_url by apply sextets_of_bytes_bounded.
  apply decode_sextets_of_bytes.
Qed.

(** C10. For every byte array [a], decoding the base64url text that
    [uint8ArrayToBase64Url] writes for [a] with [base64urlToUint8Array]
    returns [a] itself, without throwing and without touching the world:
    the two helpers of the server form a round trip.  The text has no
    padding and no character outside the URL-safe alphabet, and the decoding
    that [parseCoseP256Key] applies to a stored key reads the same bytes
    from it. *)
Theorem base64url_round_trip (a : list byte) (w : World) :
  base64urlToUint8Array (uint8ArrayToBase64Url a) w = (w, Normal a)
  /\ all_chars (fun c => negb (Ascii.eqb c "=") && negb (Ascii.eqb c "+")
                         && negb (Ascii.eqb c "/"))
       (uint8ArrayToBase64Url a) = true
  /\ Base64.Buffer_from_base64 (uint8ArrayToBase64Url a) = a.
Proof.
  split; [apply base64urlToUint8Array_of_encoded|].
  split; [|apply Buffer_from_base64_of_encoded].
  rewrite uint8ArrayToBase64Url_shape.
  pose proof (all_chars_text_of_sextets _ (sextets_of_bytes_bounded a)) as Ha.
  unfold to_url. revert Ha.
  induction (text_of_sextets (sextets_of_bytes a)) as [|c t IH];
    [reflexivity|].
  cbn [all_chars JsString.replace_all].
  intros E. apply andb_prop in E as [Ec Et]. rewrite (IH Et), andb_true_r.
  clear -Ec. destruct c as [[] [] [] [] [] [] [] []];
    solve [discriminate Ec | reflexivity].
Qed.

(** ** Hexadecimal texts and slices *)

Lemma length_hex_encode (bs : list byte) :
  String.length (Hex.encode bs) = (2 * List.length bs)%nat.
Proof.
  induction bs as [|b bs IH]; [reflexivity|].
  cbn [Hex.encode String.length List.length]. rewrite IH. lia.
Qed.

(** A payload of at least 65 bytes that starts with [0x04] is the marker,
    32 bytes of X, 32 bytes of Y, and what follows; the two slices of the
    decoder are X and Y. *)
Lemma uncompressed_point_split (tail : list byte) :
  (64 <= List.length tail)%nat ->
  exists X Y rest,
    tail = (X ++ Y ++ rest)%list
    /\ List.length X = 32%nat /\ List.length Y = 32%nat
    /\ slice (Byte.x04 :: tail) 1 33 = X
    /\ slice (Byte.x04 :: tail) 33 65 = Y.
Proof.
  intros Hlen.
  exists (firstn 32 tail), (firstn 32 (skipn 32 tail)), (skipn 64 tail).
  repeat split.
  - rewrite <- (firstn_skipn 32 tail) at 1. f_equal.
    rewrite <- (firstn_skipn 32 (skipn 32 tail)) at 1. f_equal.
    now rewrite skipn_skipn.
  - rewrite length_firstn. lia.
  - rewrite length_firstn, length_skipn. lia.
Qed.

(** The lenient reading of a text does not see the URL-safe substitution
    nor padding added at its end. *)
Lemma sextets_lenient_padded (s : string) (k : nat) :
  Base64.sextets_lenient (from_url s +:+ JsString.repeat_eq k)
  = Base64.sextets_lenient s.
Proof.
  unfold from_url. induction s as [|c s IH].
  - destruct k; reflexivity.
  - change (JsString.replace_all "_" "/"
              (JsString.replace_all "-" "+" (String c s))
            +:+ JsString.repeat_eq k)
      with (String
              (if Ascii.eqb (if Ascii.eqb c "-" then "+"%char else c) "_"
               then "/"%char
               else if Ascii.eqb c "-" then "+"%char else c)
              (JsString.replace_all "_" "/" (JsString.replace_all "-" "+" s)
               +:+ JsString.repeat_eq k)).
    cbn [Base64.sextets_lenient]. rewrite IH.
    destruct c as [[] [] [] [] [] [] [] []]; reflexivity.
Qed.

Lemma cose_bytes_of_text (s : string) :
  Base64.Buffer_from_base64
    (if negb (4 - JsString.length (from_url s) mod 4 =? 4)
     then from_url s
          +:+ JsString.repeat_eq
                (N.to_nat (4 - JsString.length (from_url s) mod 4))
     else from_url s)
  = Base64.Buffer_from_base64 s.
Proof.
  unfold Base64.Buffer_from_base64. f_equal.
  destruct (negb _).
  - apply sextets_lenient_padded.
  - rewrite <- (sextets_lenient_padded s 0).
    f_equal. change (JsString.repeat_eq 0) with EmptyString.
    generalize (from_url s). clear.
    intros t. induction t as [|c t IH]; [reflexivity|].
    change (String c t +:+ EmptyString) with (String c (t +:+ EmptyString)).
    now rewrite <- IH.
Qed.

(** ** The SPKI decoder *)

Section SpkiDecoder.

Context `{CodecLibraries}.

Lemma short_payload_test (payload : list byte) :
  (N.of_nat (List.length payload) <? 65)
  = negb (65 <=? List.length payload)%nat.
Proof.
  destruct (N.ltb_spec (N.of_nat (List.length payload)) 65);
    destruct (Nat.leb_spec 65 (List.length payload)); simpl; lia || reflexivity.
Qed.

(** C3. For every input whose bytes [fromBER] parses (offset not -1) into
    a SEQUENCE of at least two elements whose second element is a BIT
    STRING with a payload of at least 65 bytes that starts with 0x04, the
    payload is [0x04 :: X ++ Y ++ rest] with X and Y of 32 bytes each, and
    [parseP256SpkiBase64] returns the hex of X (payload bytes 1 to 32) as
    xHex and the hex of Y (payload bytes 33 to 64) as yHex. *)
Theorem parseP256SpkiBase64_extracts_point
    (pubKeyB64 : string) (w : World) (elements : list Asn1.Block)
    (payload : list byte) (nested : list Asn1.Block) :
  let asn1 := fromBER (Base64.Buffer_from_base64 pubKeyB64) in
  Asn1.offset asn1 <> (-1)%Z ->
  Asn1.result asn1 = Asn1.Sequence elements ->
  (2 <= List.length elements)%nat ->
  nth_error elements 1 = Some (Asn1.BitString payload nested) ->
  (65 <= List.length payload)%nat ->
  nth_error payload 0 = Some Byte.x04 ->
  exists X Y rest : list byte,
    payload = (Byte.x04 :: X ++ Y ++ rest)%list
    /\ List.length X = 32%nat /\ List.length Y = 32%nat
    /\ parseP256SpkiBase64 pubKeyB64 w
       = (w, Normal {| xHex := Hex.encode X; yHex := Hex.encode Y |}).
Proof.
  intros asn1 Hoff Hres Hlen Hsnd Hpay Hhead.
  destruct payload as [|b tail]; [discriminate Hhead|].
  injection Hhead as ->.
  destruct (uncompressed_point_split tail) as (X & Y & rest & E & HX & HY & SX & SY);
    [cbn [List.length] in Hpay; lia|].
  exists X, Y, rest. repeat split; [now rewrite E | exact HX | exact HY |].
  unfold parseP256SpkiBase64. fold asn1.
  destruct (Z.eqb_spec (Asn1.offset asn1) (-1)) as [E1|_]; [contradiction|].
  rewrite Hres. cbn [Asn1.value_length Asn1.value_at_1].
  destruct (N.ltb_spec (N.of_nat (List.length elements)) 2) as [E2|_]; [lia|].
  rewrite Hsnd, short_payload_test.
  destruct (Nat.leb_spec 65 (List.length (Byte.x04 :: tail))) as [_|E3]; [|lia].
  cbn [negb]. now rewrite SX, SY.
Qed.

(** C4. For every input that [fromBER] parses into a sequence, each
    structural violation makes [parseP256SpkiBase64] throw the error that
    names the failed check, with no coordinates and the world untouched:
    fewer than two elements; a second element that is not a BIT STRING; a
    BIT STRING payload shorter than 65 bytes; a payload of at least 65
    bytes that does not start with 0x04.  The four errors are pairwise
    different. *)
Theorem parseP256SpkiBase64_rejects_malformed
    (pubKeyB64 : string) (w : World) (elements : list Asn1.Block) :
  let asn1 := fromBER (Base64.Buffer_from_base64 pubKeyB64) in
  let not_a_sequence := Error "Not a valid SubjectPublicKeyInfo sequence." in
  let not_a_bit_string :=
    Error "SPKI does not contain a BitString in the second element." in
  let too_short (n : nat) :=
    Error ("Public key bit string is too short. Length = "
           +:+ decimal (N.of_nat n)) in
  let wrong_prefix :=
    Error "Expected uncompressed format (0x04) at start of public key data." in
  Asn1.offset asn1 <> (-1)%Z ->
  Asn1.result asn1 = Asn1.Sequence elements ->
  ((List.length elements < 2)%nat ->
   parseP256SpkiBase64 pubKeyB64 w = (w, Thrown not_a_sequence))
  /\ ((2 <= List.length elements)%nat ->
      (forall payload nested,
         nth_error elements 1 <> Some (Asn1.BitString payload nested)) ->
      parseP256SpkiBase64 pubKeyB64 w = (w, Thrown not_a_bit_string))
  /\ (forall payload nested,
        nth_error elements 1 = Some (Asn1.BitString payload nested) ->
        (List.length payload < 65)%nat ->
        parseP256SpkiBase64 pubKeyB64 w
        = (w, Thrown (too_short (List.length payload))))
  /\ (forall payload nested,
        nth_error elements 1 = Some (Asn1.BitString payload nested) ->
        (65 <= List.length payload)%nat ->
        nth_error payload 0 <> Some Byte.x04 ->
        parseP256SpkiBase64 pubKeyB64 w = (w, Thrown wrong_prefix))
  /\ (forall n : nat,
        not_a_sequence <> not_a_bit_string
        /\ not_a_sequence <> too_short n
        /\ not_a_sequence <> wrong_prefix
        /\ not_a_bit_string <> too_short n
        /\ not_a_bit_string <> wrong_prefix
        /\ too_short n <> wrong_prefix).
Proof.
  intros asn1 not_a_sequence not_a_bit_string too_short wrong_prefix Hoff Hres.
  assert (Hparse : forall len2 : bool,
    (N.of_nat (List.length elements) <? 2) = len2 ->
    parseP256SpkiBase64 pubKeyB64 w
    = if len2 then (w, Thrown not_a_sequence)
      else match nth_error elements 1 with
           | Some (Asn1.BitString payload _) =>
               if (N.of_nat (List.length payload) <? 65)
               then (w, Thrown (too_short (List.length payload)))
               else match payload with
                    | Byte.x04 :: _ =>
                        (w, Normal {| xHex := Hex.encode (slice payload 1 33);
                                      yHex := Hex.encode (slice payload 33 65) |})
                    | _ => (w, Thrown wrong_prefix)
                    end
           | _ => (w, Thrown not_a_bit_string)
           end).
  { intros len2 E. unfold parseP256SpkiBase64. fold asn1.
    destruct (Z.eqb_spec (Asn1.offset asn1) (-1)) as [E1|_]; [contradiction|].
    rewrite Hres. cbn [Asn1.value_length Asn1.value_at_1]. rewrite E.
    destruct len2; [reflexivity|].
    destruct (nth_error elements 1) as [[| payload nested | |]|]; try reflexivity.
    destruct (N.of_nat (List.length payload) <? 65); [reflexivity|].
    destruct payload as [|b tail]; [reflexivity|].
    destruct b; reflexivity. }
  split; [|split; [|split; [|split]]].
  - intros Hlen. rewrite (Hparse true); [reflexivity|].
    apply N.ltb_lt. lia.
  - intros Hlen Hnot. rewrite (Hparse false) by (apply N.ltb_ge; lia).
    destruct (nth_error elements 1) as [[| payload nested | |]|];
      try reflexivity.
    now destruct (Hnot payload nested).
  - intros payload nested Hsnd Hshort.
    assert (Hlen : (2 <= List.length elements)%nat).
    { apply (proj1 (nth_error_Some elements 1)). now rewrite Hsnd. }
    rewrite (Hparse false) by (apply N.ltb_ge; lia).
    rewrite Hsnd. rewrite short_payload_test.
    destruct (Nat.leb_spec 65 (List.length payload)); [lia | reflexivity].
  - intros payload nested Hsnd Hlong Hhead.
    assert (Hlen : (2 <= List.length elements)%nat).
    { apply (proj1 (nth_error_Some elements 1)). now rewrite Hsnd. }
    rewrite (Hparse false) by (apply N.ltb_ge; lia).
    rewrite Hsnd. rewrite short_payload_test.
    destruct (Nat.leb_spec 65 (List.length payload)); [|lia]. cbn [negb].
    destruct payload as [|b tail]; [reflexivity|].
    destruct b; try reflexivity. now destruct Hhead.
  - intros n. unfold not_a_sequence, not_a_bit_string, too_short, wrong_prefix.
    repeat split; intros E; cbv [String.append] in E; discriminate E.
Qed.

End SpkiDecoder.

(** ** The COSE decoder *)

Section CoseDecoder.

Context `{CodecLibraries}.

(** The decoder as a function of the bytes of its input. *)
Lemma parseCoseP256Key_of_bytes (coseB64Url : string) (w : World) :
  parseCoseP256Key coseB64Url w
  = (w,
     match cbor_decodeFirstSync (Base64.Buffer_from_base64 coseB64Url) with
     | Thrown e => Thrown e
     | Normal (JsMap entries) =>
         if negb (truthy (Map_get entries (-2)))
            || negb (truthy (Map_get entries (-3)))
         then Thrown (Error "COSE key missing x or y")
         else
           match Buffer_from (Map_get entries (-2)) with
           | Thrown e => Thrown e
           | Normal X =>
               match Buffer_from (Map_get entries (-3)) with
               | Thrown e => Thrown e
               | Normal Y =>
                   Normal {| xHex := Hex.encode X; yHex := Hex.encode Y |}
               end
           end
     | Normal _ => Thrown (Error "COSE public key is not a CBOR map?")
     end).
Proof.
  unfold parseCoseP256Key. cbv zeta. fold (from_url coseB64Url).
  rewrite cose_bytes_of_text.
  unfold bind, lift, throw, ret.
  destruct (cbor_decodeFirstSync _) as [[| | | | | | | entries |]|e];
    try reflexivity.
  destruct (negb _ || negb _); [reflexivity|].
  destruct (Buffer_from (Map_get entries (-2))); [|reflexivity].
  destruct (Buffer_from (Map_get entries (-3))); reflexivity.
Qed.

Lemma Map_get_absent (entries : list (JsValue * JsValue)) (n : Z) :
  Map_has entries n = false -> Map_get entries n = JsUndefined.
Proof.
  induction entries as [|[k v] rest IH]; [reflexivity|].
  destruct k; cbn [Map_has Map_get]; try exact IH.
  destruct (_ =? _)%Z; [discriminate | exact IH].
Qed.

(** C5, as amended. For every input whose bytes CBOR-decode to a map with
    a byte string at label -2 and a byte string at label -3,
    [parseCoseP256Key] returns the hex of those two byte strings as xHex
    and yHex; for every input whose decoded map has no entry at one of the
    two labels it throws "COSE key missing x or y", and for every input
    that decodes to something that is not a map it throws "COSE public key
    is not a CBOR map?".  The world is untouched in each case. *)
Theorem parseCoseP256Key_labels (coseB64Url : string) (w : World) :
  let decoded := cbor_decodeFirstSync (Base64.Buffer_from_base64 coseB64Url) in
  (forall entries X Y,
     decoded = Normal (JsMap entries) ->
     Map_get entries (-2) = JsBuffer X ->
     Map_get entries (-3) = JsBuffer Y ->
     parseCoseP256Key coseB64Url w
     = (w, Normal {| xHex := Hex.encode X; yHex := Hex.encode Y |}))
  /\ (forall entries,
        decoded = Normal (JsMap entries) ->
        Map_has entries (-2) = false \/ Map_has entries (-3) = false ->
        parseCoseP256Key coseB64Url w
        = (w, Thrown (Error "COSE key missing x or y")))
  /\ (forall v,
        decoded = Normal v ->
        (forall entries, v <> JsMap entries) ->
        parseCoseP256Key coseB64Url w
        = (w, Thrown (Error "COSE public key is not a CBOR map?"))).
Proof.
  intros decoded. rewrite parseCoseP256Key_of_bytes. fold decoded.
  split; [|split].
  - intros entries X Y -> EX EY. rewrite EX, EY. cbn [truthy negb orb].
    now rewrite !Buffer_from_buffer.
  - intros entries -> [E|E]; rewrite (Map_get_absent _ _ E); cbn [truthy negb orb].
    + reflexivity.
    + now rewrite orb_true_r.
  - intros v -> Hv. destruct v; try reflexivity. now destruct (Hv entries).
Qed.

(** C2, as amended. For every input accepted without error,
    [parseP256SpkiBase64] returns an xHex and a yHex that are each the hex
    of exactly 32 bytes, 64 characters; [parseCoseP256Key] returns the hex
    of the bytes that [Buffer.from] makes of the entries at labels -2 and
    -3, two characters per byte, whatever their number: it makes no check
    of their length. *)
Theorem accepted_keys_are_hex (input : string) (w w' : World) (c : Coordinates) :
  (parseP256SpkiBase64 input w = (w', Normal c) ->
   exists X Y : list byte,
     List.length X = 32%nat /\ List.length Y = 32%nat
     /\ xHex c = Hex.encode X /\ yHex c = Hex.encode Y
     /\ String.length (xHex c) = 64%nat /\ String.length (yHex c) = 64%nat)
  /\ (parseCoseP256Key input w = (w', Normal c) ->
      exists (entries : list (JsValue * JsValue)) (X Y : list byte),
        cbor_decodeFirstSync (Base64.Buffer_from_base64 input)
        = Normal (JsMap entries)
        /\ Buffer_from (Map_get entries (-2)) = Normal X
        /\ Buffer_from (Map_get entries (-3)) = Normal Y
        /\ xHex c = Hex.encode X /\ yHex c = Hex.encode Y
        /\ String.length (xHex c) = (2 * List.length X)%nat
        /\ String.length (yHex c) = (2 * List.length Y)%nat).
Proof.
  split.
  - unfold parseP256SpkiBase64. cbv zeta. unfold throw, ret.
    destruct (_ =? _)%Z; [discriminate|].
    destruct (Asn1.value_length _) as [len|]; [|discriminate].
    destruct (len <? 2); [discriminate|].
    destruct (Asn1.value_at_1 _) as [[| payload nested | |]|]; try discriminate.
    rewrite short_payload_test.
    destruct (Nat.leb_spec 65 (List.length payload)) as [Hlen|_];
      [cbn [negb] | discriminate].
    destruct payload as [|b tail]; [discriminate|].
    destruct b; try discriminate.
    intros E. injection E as _ <-.
    destruct (uncompressed_point_split tail) as (X & Y & rest & _ & HX & HY & SX & SY);
      [cbn [List.length] in Hlen; lia|].
    exists X, Y. cbn [xHex yHex]. rewrite SX, SY, !length_hex_encode, HX, HY.
    repeat split; reflexivity.
  - rewrite parseCoseP256Key_of_bytes.
    destruct (cbor_decodeFirstSync _) as [[| | | | | | | entries |]|e] eqn:ED;
      try discriminate.
    destruct (negb _ || negb _); [discriminate|].
    destruct (Buffer_from (Map_get entries (-2))) as [X|] eqn:EX; [|discriminate].
    destruct (Buffer_from (Map_get entries (-3))) as [Y|] eqn:EY; [|discriminate].
    intros E. injection E as _ <-.
    exists entries, X, Y. cbn [xHex yHex]. rewrite !length_hex_encode.
    repeat split; assumption || reflexivity.
Qed.

End CoseDecoder.

(** ** Purity of the decoders *)

Section Purity.

Context `{CodecLibraries}.

Lemma parseP256SpkiBase64_same_everywhere (input : string) (w w0 : World) :
  parseP256SpkiBase64 input w = (w, snd (parseP256SpkiBase64 input w0)).
Proof.
  unfold parseP256SpkiBase64. cbv zeta. unfold throw, ret.
  destruct (_ =? _)%Z; [reflexivity|].
  destruct (Asn1.value_length _) as [len|]; [|reflexivity].
  destruct (len <? 2); [reflexivity|].
  destruct (Asn1.value_at_1 _) as [[| payload nested | |]|]; try reflexivity.
  destruct (_ <? 65); [reflexivity|].
  destruct payload as [|b tail]; [reflexivity|].
  destruct b; reflexivity.
Qed.

Lemma parseP256SpkiBase64_of_bytes (input1 input2 : string) (w : World) :
  Base64.Buffer_from_base64 input1 = Base64.Buffer_from_base64 input2 ->
  parseP256SpkiBase64 input1 w = parseP256SpkiBase64 input2 w.
Proof. intros E. unfold parseP256SpkiBase64. now rewrite E. Qed.

(** C9. Both decoders are deterministic and pure: each returns the same
    coordinates, or throws the same error, in every world and leaves the
    world (the three maps and the console) as it found it; and two runs on
    inputs that carry the same byte sequence, in any two worlds, give the
    same result. *)
Theorem decoders_are_pure (input1 input2 : string) (w1 w2 : World) :
  Base64.Buffer_from_base64 input1 = Base64.Buffer_from_base64 input2 ->
  pure (parseP256SpkiBase64 input1)
  /\ pure (parseCoseP256Key input1)
  /\ snd (parseP256SpkiBase64 input1 w1) = snd (parseP256SpkiBase64 input2 w2)
  /\ snd (parseCoseP256Key input1 w1) = snd (parseCoseP256Key input2 w2).
Proof.
  intros E. repeat split.
  - exists (snd (parseP256SpkiBase64 input1 initial_world)). intros w.
    apply parseP256SpkiBase64_same_everywhere.
  - eexists. intros w. apply parseCoseP256Key_of_bytes.
  - rewrite (parseP256SpkiBase64_of_bytes input1 input2 w1 E).
    rewrite (parseP256SpkiBase64_same_everywhere input2 w1 w2).
    reflexivity.
  - rewrite !parseCoseP256Key_of_bytes. cbn [snd]. now rewrite E.
Qed.

(** In contrast, [parseCred] is not pure: when it returns a key it has
    written the two coordinates on the console. *)
Lemma parseCred_writes_console (cred : RegistrationResponseJSON)
    (w w' : World) (key : WebAuthnKey) :
  parseCred cred w = (w', Normal key) ->
  exists linex liney : string,
    console w' = (console w ++ [linex; liney])%list.
Proof.
  unfold parseCred. cbv zeta. unfold bind at 1.
  unfold b64ToBytes. destruct (Base64.atob _); [|discriminate].
  unfold ret at 1. unfold throw.
  destruct (JsString.truthy _) as [pubKey|]; [|discriminate].
  unfold bind at 1.
  rewrite (parseP256SpkiBase64_same_everywhere pubKey w initial_world).
  destruct (snd (parseP256SpkiBase64 pubKey initial_world)) as [coords|];
    [|discriminate].
  unfold bind, console_log, modify, ret. cbn.
  intros E. injection E as <- _. cbn [console].
  eexists _, _. rewrite <- app_assoc. reflexivity.
Qed.

End Purity.

(** ** The decoders on concrete keys *)

(** The key of the comment in [parseCred]. *)
Example parseP256SpkiBase64_sample_key :
  parseP256SpkiBase64 (H := Reference.codec)
    "MFkwEwYHKoZIzj0CAQYIKoZIzj0DAQcDQgAEJRJO-ZH7C2sld2m14Qd9frXJXfs2e8KNXlpfwXNxHH9OaBMIK7S3r_TiNlIn05LoD6eU0WylGNIyMdFEy8xg5A"
    initial_world
  = (initial_world,
     Normal
       {| xHex := "25124ef991fb0b6b257769b5e1077d7eb5c95dfb367bc28d5e5a5fc173711c7f";
          yHex := "4e6813082bb4b7aff4e2365227d392e80fa794d16ca518d23231d144cbcc60e4" |}).
Proof. vm_compute. reflexivity. Qed.

Lemma parseP256SpkiBase64_extracts_point_witness :
  exists X Y rest : list byte,
    Asn1.value_at_1
      (Asn1.result
         (fromBER (CodecLibraries := Reference.codec)
            (Base64.Buffer_from_base64
               "MFkwEwYHKoZIzj0CAQYIKoZIzj0DAQcDQgAEJRJO-ZH7C2sld2m14Qd9frXJXfs2e8KNXlpfwXNxHH9OaBMIK7S3r_TiNlIn05LoD6eU0WylGNIyMdFEy8xg5A")))
    = Some (Asn1.BitString (Byte.x04 :: X ++ Y ++ rest)%list [])
    /\ parseP256SpkiBase64 (H := Reference.codec)
         "MFkwEwYHKoZIzj0CAQYIKoZIzj0DAQcDQgAEJRJO-ZH7C2sld2m14Qd9frXJXfs2e8KNXlpfwXNxHH9OaBMIK7S3r_TiNlIn05LoD6eU0WylGNIyMdFEy8xg5A"
         initial_world
       = (initial_world,
          Normal {| xHex := Hex.encode X; yHex := Hex.encode Y |}).
Proof.
  edestruct (parseP256SpkiBase64_extracts_point (H := Reference.codec)
    "MFkwEwYHKoZIzj0CAQYIKoZIzj0DAQcDQgAEJRJO-ZH7C2sld2m14Qd9frXJXfs2e8KNXlpfwXNxHH9OaBMIK7S3r_TiNlIn05LoD6eU0WylGNIyMdFEy8xg5A"
    initial_world)
    as (X & Y & rest & E & _ & _ & P).
  - vm_compute. discriminate.
  - vm_compute. reflexivity.
  - vm_compute. lia.
  - vm_compute. reflexivity.
  - vm_compute. lia.
  - vm_compute. reflexivity.
  - exists X, Y, rest. split; [|exact P].
    rewrite <- E. vm_compute. reflexivity.
Defined.

Lemma parseP256SpkiBase64_rejects_malformed_witness :
  parseP256SpkiBase64 (H := Reference.codec) "MAA=" initial_world
  = (initial_world, Thrown (Error "Not a valid SubjectPublicKeyInfo sequence."))
  /\ parseP256SpkiBase64 (H := Reference.codec) "MAUwAAIBAA==" initial_world
     = (initial_world,
        Thrown (Error "SPKI does not contain a BitString in the second element."))
  /\ parseP256SpkiBase64 (H := Reference.codec) "MAYwAAMCAAQ=" initial_world
     = (initial_world,
        Thrown (Error "Public key bit string is too short. Length = 1"))
  /\ parseP256SpkiBase64 (H := Reference.codec)
       "MFkwEwYHKoZIzj0CAQYIKoZIzj0DAQcDQgACJRJO+ZH7C2sld2m14Qd9frXJXfs2e8KNXlpfwXNxHH9OaBMIK7S3r/TiNlIn05LoD6eU0WylGNIyMdFEy8xg5A=="
       initial_world
     = (initial_world,
        Thrown (Error
          "Expected uncompressed format (0x04) at start of public key data.")).
Proof.
  pose (elements := fun key : string =>
          match Asn1.result (fromBER (CodecLibraries := Reference.codec)
                               (Base64.Buffer_from_base64 key)) with
          | Asn1.Sequence value => value
          | _ => []
          end).
  split; [|split; [|split]].
  - refine (proj1 (parseP256SpkiBase64_rejects_malformed
                     (H := Reference.codec) "MAA=" initial_world
                     (elements "MAA=") _ _) _).
    + vm_compute. discriminate.
    + vm_compute. reflexivity.
    + vm_compute. lia.
  - refine (proj1 (proj2 (parseP256SpkiBase64_rejects_malformed
                     (H := Reference.codec) "MAUwAAIBAA==" initial_world
                     (elements "MAUwAAIBAA==") _ _)) _ _).
    + vm_compute. discriminate.
    + vm_compute. reflexivity.
    + vm_compute. lia.
    + intros payload nested. vm_compute. discriminate.
  - refine (proj1 (proj2 (proj2 (parseP256SpkiBase64_rejects_malformed
                     (H := Reference.codec) "MAYwAAMCAAQ=" initial_world
                     (elements "MAYwAAMCAAQ=") _ _)))
              [Byte.x04] [] _ _).
    + vm_compute. discriminate.
    + vm_compute. reflexivity.
    + vm_compute. reflexivity.
    + vm_compute. lia.
  - refine (proj1 (proj2 (proj2 (proj2 (parseP256SpkiBase64_rejects_malformed
                     (H := Reference.codec)
                     "MFkwEwYHKoZIzj0CAQYIKoZIzj0DAQcDQgACJRJO+ZH7C2sld2m14Qd9frXJXfs2e8KNXlpfwXNxHH9OaBMIK7S3r/TiNlIn05LoD6eU0WylGNIyMdFEy8xg5A=="
                     initial_world
                     (elements "MFkwEwYHKoZIzj0CAQYIKoZIzj0DAQcDQgACJRJO+ZH7C2sld2m14Qd9frXJXfs2e8KNXlpfwXNxHH9OaBMIK7S3r/TiNlIn05LoD6eU0WylGNIyMdFEy8xg5A==")
                     _ _))))
              (Byte.x02 :: _) [] _ _ _).
    + vm_compute. discriminate.
    + vm_compute. reflexivity.
    + vm_compute. reflexivity.
    + vm_compute. lia.
    + vm_compute. discriminate.
Defined.

(** The COSE path accepts a key whose coordinates are one byte long:
    the CBOR map [{-2: h'01', -3: h'02'}]. *)
Lemma parseCoseP256Key_accepts_short_coordinates :
  exists c : Coordinates,
    parseCoseP256Key (H := Reference.codec) "oiFBASJBAg" initial_world
    = (initial_world, Normal c)
    /\ xHex c = "01" /\ yHex c = "02"
    /\ String.length (xHex c) <> 64%nat
    /\ String.length (yHex c) <> 64%nat.
Proof.
  exists {| xHex := "01"; yHex := "02" |}.
  repeat split; try reflexivity; vm_compute; discriminate.
Qed.

Lemma accepted_keys_are_hex_witness :
  (exists X Y : list byte,
     List.length X = 32%nat /\ List.length Y = 32%nat
     /\ "25124ef991fb0b6b257769b5e1077d7eb5c95dfb367bc28d5e5a5fc173711c7f"
        = Hex.encode X
     /\ "4e6813082bb4b7aff4e2365227d392e80fa794d16ca518d23231d144cbcc60e4"
        = Hex.encode Y)
  /\ (exists (entries : list (JsValue * JsValue)) (X Y : list byte),
        cbor_decodeFirstSync (CodecLibraries := Reference.codec)
          (Base64.Buffer_from_base64 "oiFBASJBAg")
        = Normal (JsMap entries)
        /\ "01" = Hex.encode X /\ "02" = Hex.encode Y
        /\ String.length "01" = (2 * List.length X)%nat).
Proof.
  split.
  - destruct (proj1 (accepted_keys_are_hex (H := Reference.codec)
        "MFkwEwYHKoZIzj0CAQYIKoZIzj0DAQcDQgAEJRJO-ZH7C2sld2m14Qd9frXJXfs2e8KNXlpfwXNxHH9OaBMIK7S3r_TiNlIn05LoD6eU0WylGNIyMdFEy8xg5A"
        initial_world initial_world
        {| xHex := "25124ef991fb0b6b257769b5e1077d7eb5c95dfb367bc28d5e5a5fc173711c7f";
           yHex := "4e6813082bb4b7aff4e2365227d392e80fa794d16ca518d23231d144cbcc60e4" |})
        ltac:(vm_compute; reflexivity))
      as (X & Y & HX & HY & EX & EY & _).
    exists X, Y. repeat split; assumption.
  - destruct (proj2 (accepted_keys_are_hex (H := Reference.codec)
        "oiFBASJBAg" initial_world initial_world
        {| xHex := "01"; yHex := "02" |})
        ltac:(vm_compute; reflexivity))
      as (entries & X & Y & ED & _ & _ & EX & EY & LX & _).
    exists entries, X, Y. repeat split; assumption.
Defined.

(** The COSE path rejects a map that has entries at both labels when they
    are not truthy: the CBOR map [{-2: 0, -3: 0}]. *)
Lemma parseCoseP256Key_rejects_zero_entries :
  exists entries : list (JsValue * JsValue),
    cbor_decodeFirstSync (CodecLibraries := Reference.codec)
      (Base64.Buffer_from_base64 "oiEAIgA")
    = Normal (JsMap entries)
    /\ Map_has entries (-2) = true
    /\ Map_has entries (-3) = true
    /\ parseCoseP256Key (H := Reference.codec) "oiEAIgA" initial_world
       = (initial_world, Thrown (Error "COSE key missing x or y")).
Proof.
  exists [(JsNumber (-2), JsNumber 0); (JsNumber (-3), JsNumber 0)].
  repeat split; vm_compute; reflexivity.
Qed.

Lemma parseCoseP256Key_labels_witness :
  parseCoseP256Key (H := Reference.codec)
    "pQECAyYgASFYICUSTvmR-wtrJXdpteEHfX61yV37NnvCjV5aX8FzcRx_IlggTmgTCCu0t6_04jZSJ9OS6A-nlNFspRjSMjHRRMvMYOQ"
    initial_world
  = (initial_world,
     Normal
       {| xHex := "25124ef991fb0b6b257769b5e1077d7eb5c95dfb367bc28d5e5a5fc173711c7f";
          yHex := "4e6813082bb4b7aff4e2365227d392e80fa794d16ca518d23231d144cbcc60e4" |})
  /\ parseCoseP256Key (H := Reference.codec)
       "pAEBAycgBiFYIAABAgMEBQYHCAkKCwwNDg8QERITFBUWFxgZGhscHR4f" initial_world
     = (initial_world, Thrown (Error "COSE key missing x or y"))
  /\ parseCoseP256Key (H := Reference.codec) "gwECAw" initial_world
     = (initial_world, Thrown (Error "COSE public key is not a CBOR map?")).
Proof.
  pose (entries := fun key : string =>
          match cbor_decodeFirstSync (CodecLibraries := Reference.codec)
                  (Base64.Buffer_from_base64 key) with
          | Normal (JsMap entries) => entries
          | _ => []
          end).
  pose (bytes_at := fun (key : string) (label : Z) =>
          match Map_get (entries key) label with
          | JsBuffer bytes => bytes
          | _ => []
          end).
  split; [|split].
  - pose (key := "pQECAyYgASFYICUSTvmR-wtrJXdpteEHfX61yV37NnvCjV5aX8FzcRx_IlggTmgTCCu0t6_04jZSJ9OS6A-nlNFspRjSMjHRRMvMYOQ").
    refine (eq_trans
      (proj1 (parseCoseP256Key_labels (H := Reference.codec) key initial_world)
         (entries key) (bytes_at key (-2)%Z) (bytes_at key (-3)%Z) _ _ _) _);
      vm_compute; reflexivity.
  - pose (key := "pAEBAycgBiFYIAABAgMEBQYHCAkKCwwNDg8QERITFBUWFxgZGhscHR4f").
    refine (proj1 (proj2
      (parseCoseP256Key_labels (H := Reference.codec) key initial_world))
         (entries key) _ _).
    + vm_compute. reflexivity.
    + right. vm_compute. reflexivity.
  - refine (proj2 (proj2
      (parseCoseP256Key_labels (H := Reference.codec) "gwECAw" initial_world))
         (JsArray [JsNumber 1; JsNumber 2; JsNumber 3]) _ _).
    + vm_compute. reflexivity.
    + intros entries'. discriminate.
Defined.

Lemma decoders_are_pure_witness :
  Base64.Buffer_from_base64 "oiFBASJBAg" = Base64.Buffer_from_base64 "oiFB ASJB Ag=="
  /\ snd (parseCoseP256Key (H := Reference.codec) "oiFBASJBAg" initial_world)
     = snd (parseCoseP256Key (H := Reference.codec) "oiFB ASJB Ag=="
              {| userDB := ∅; registrationChallengeMap := ∅;
                 loginChallengeMap := ∅; console := ["started"] |}).
Proof.
  split; [vm_compute; reflexivity|].
  apply (decoders_are_pure (H := Reference.codec)
           "oiFBASJBAg" "oiFB ASJB Ag==" initial_world
           {| userDB := ∅; registrationChallengeMap := ∅;
              loginChallengeMap := ∅; console := ["started"] |}).
  vm_compute. reflexivity.
Defined.

(** ** The handlers *)

Ltac js_run :=
  cbv beta iota zeta delta
    [handle verify_registration verify_login generate_login_options
     generate_registration_options
     bind ret lift throw try_catch get_world modify
     userDB_get userDB_set userRecord_set_counter
     registrationChallengeMap_get registrationChallengeMap_set
     registrationChallengeMap_delete loginChallengeMap_has
     loginChallengeMap_set loginChallengeMap_delete console_log
     registration_opts authentication_opts stores];
  cbn [userDB registrationChallengeMap loginChallengeMap console
       ao_challenge ro_challenge auth_verified authenticationInfo
       reg_verified registrationInfo fst snd negb].

Section Handlers.

Context `{CodecLibraries} `{WebAuthnServer}.

Lemma parseCoseP256Key_pure (coseB64Url : string) :
  pure (parseCoseP256Key coseB64Url).
Proof. eexists. intros w. apply parseCoseP256Key_of_bytes. Qed.

(** C8. For every call of [verify_registration] that finds a challenge and
    a user: when the verifier returns a verified response with its
    registration information, the user's record is replaced by the old user
    name with exactly the credential identifier and the public key of that
    information, both as base64url text that decodes back to the same
    bytes (also under the decoding of [parseCoseP256Key]), and its counter,
    and the call answers ok; when the verifier
    throws or does not verify, [userDB] is left as it was and the call
    answers 400.  A call that finds no challenge or no user leaves [userDB]
    as it was too. *)
Theorem verify_registration_commits_all_or_nothing
    (userId : string) (credential : RegistrationResponseJSON) (w : World) :
  let '(w', response) := verify_registration userId credential w in
  match JsString.truthy (registrationChallengeMap w !! userId),
        userDB w !! userId with
  | Some expectedChallenge, Some userRecord =>
      match registration_accepted
              (verifyRegistrationResponse
                 (registration_opts credential expectedChallenge)) with
      | Some info =>
          exists stored : Credentials,
            userDB w'
            = <[userId := {| username := username userRecord;
                             credentials := stored |}]> (userDB w)
            /\ userDB w' !! userId
               = Some {| username := username userRecord;
                         credentials := stored |}
            /\ base64urlToUint8Array (credentialID stored) w'
               = (w', Normal (ri_credentialID info))
            /\ base64urlToUint8Array (publicKey stored) w'
               = (w', Normal (ri_credentialPublicKey info))
            /\ Base64.Buffer_from_base64 (publicKey stored)
               = ri_credentialPublicKey info
            /\ counter stored = ri_counter info
            /\ response = Normal (json RegistrationVerified)
      | None =>
          userDB w' = userDB w
          /\ exists error, response = Normal (json_status (ErrorBody error) 400)
      end
  | _, _ => userDB w' = userDB w
  end.
Proof.
  js_run.
  destruct (JsString.truthy (registrationChallengeMap w !! userId))
    as [expectedChallenge|]; [|reflexivity].
  destruct (userDB w !! userId) as [userRecord|]; [|reflexivity].
  unfold registration_accepted.
  destruct (verifyRegistrationResponse _) as [[verified [info|]]|err];
    cbv beta iota zeta delta [reg_verified registrationInfo];
    [destruct verified | destruct verified |]; js_run.
  - eexists {| credentialID := _; publicKey := _; counter := _ |}.
    split; [reflexivity|]. split; [apply lookup_insert_eq|].
    cbn [credentialID publicKey counter].
    rewrite !base64urlToUint8Array_of_encoded, Buffer_from_base64_of_encoded.
    repeat split; reflexivity.
  - split; [reflexivity | eexists; reflexivity].
  - split; [reflexivity | eexists; reflexivity].
  - split; [reflexivity | eexists; reflexivity].
  - split; [reflexivity | eexists; reflexivity].
Qed.

(** C1, as amended. For every call of [verify_registration] or
    [verify_login] whose verification fails after a matching challenge and
    the user were found (the verifier throws, or returns without a verified
    result), the call answers 400 and leaves [userDB] and both challenge
    maps exactly as they were: the user and credential store is unchanged
    and the challenge is still outstanding. *)
Theorem failed_verification_changes_no_store :
  (forall (userId : string) (credential : RegistrationResponseJSON) (w : World)
          (expectedChallenge : string) (userRecord : UserRecord),
     JsString.truthy (registrationChallengeMap w !! userId)
     = Some expectedChallenge ->
     userDB w !! userId = Some userRecord ->
     registration_accepted
       (verifyRegistrationResponse
          (registration_opts credential expectedChallenge)) = None ->
     let '(w', response) := verify_registration userId credential w in
     stores w' = stores w
     /\ registrationChallengeMap w' !! userId = registrationChallengeMap w !! userId
     /\ exists error, response = Normal (json_status (ErrorBody error) 400))
  /\ (forall (credential : AuthenticationResponseJSON) (challenge : string)
             (w : World) (userId : string) (userRecord : UserRecord)
             (idBytes keyBytes : list byte),
        loginChallengeMap w !! challenge <> None ->
        JsString.truthy (userHandle (auth_response credential)) = Some userId ->
        userDB w !! userId = Some userRecord ->
        base64urlToUint8Array (credentialID (credentials userRecord)) w
        = (w, Normal idBytes) ->
        base64urlToUint8Array (publicKey (credentials userRecord)) w
        = (w, Normal keyBytes) ->
        authentication_accepted
          (verifyAuthenticationResponse
             (authentication_opts credential challenge idBytes keyBytes
                (counter (credentials userRecord)))) = None ->
        let '(w', response) := verify_login credential challenge w in
        stores w' = stores w
        /\ loginChallengeMap w' !! challenge = loginChallengeMap w !! challenge
        /\ exists error, response = Normal (json_status (ErrorBody error) 400)).
Proof.
  split.
  - intros userId credential w expectedChallenge userRecord Hc Hu Hv.
    js_run. rewrite Hc, Hu. js_run.
    unfold registration_accepted, registration_opts in Hv.
    destruct (verifyRegistrationResponse _) as [[verified [info|]]|err];
      cbn [reg_verified registrationInfo] in *;
      [destruct verified; [discriminate Hv|] | destruct verified |]; js_run;
      (split; [reflexivity | split; [reflexivity | eexists; reflexivity]]).
  - intros credential challenge w userId userRecord idBytes keyBytes
      Hc Hh Hu Hid Hkey Hv.
    js_run. destruct (loginChallengeMap w !! challenge) as [b|] eqn:Hl;
      [|contradiction]. js_run.
    rewrite Hh, Hu. js_run. rewrite Hid, Hkey. js_run.
    unfold authentication_accepted, authentication_opts in Hv.
    destruct (verifyAuthenticationResponse _) as [[verified [info|]]|err];
      cbn [auth_verified authenticationInfo] in *;
      [destruct verified; [discriminate Hv|] | destruct verified |]; js_run;
      (split; [reflexivity | split; [assumption | eexists; reflexivity]]).
Qed.

Lemma base64urlToUint8Array_pure (base64url : string) :
  pure (base64urlToUint8Array base64url).
Proof.
  unfold pure, base64urlToUint8Array. cbv zeta.
  destruct (Base64.atob _); eexists; intros w; reflexivity.
Qed.

(** What a request can do to a login challenge that is not outstanding:
    only [generate_login_options] with that very challenge brings it in. *)
Lemma handle_keeps_consumed (r : Request) (w : World) (challenge : string) :
  loginChallengeMap w !! challenge = None ->
  r <> GenerateLoginOptions challenge ->
  loginChallengeMap (fst (handle r w)) !! challenge = None.
Proof.
  intros Habsent Hr. destruct r as [userName uuid c|userId credential|c|credential c].
  - js_run. destruct (userDB w !! uuid); js_run; exact Habsent.
  - js_run.
    destruct (JsString.truthy _); js_run; [|exact Habsent].
    destruct (userDB w !! userId); js_run; [|exact Habsent].
    destruct (verifyRegistrationResponse _) as [[[] [info|]]|err]; js_run;
      exact Habsent.
  - js_run. rewrite lookup_insert_ne; [exact Habsent|].
    intros ->. now apply Hr.
  - js_run. destruct (loginChallengeMap w !! c); js_run; [|exact Habsent].
    destruct (JsString.truthy _) as [userId|]; js_run; [|exact Habsent].
    destruct (userDB w !! userId) as [userRecord|]; js_run; [|exact Habsent].
    destruct (base64urlToUint8Array_pure (credentialID (credentials userRecord)))
      as [[idBytes|e1] ->]; js_run; [|exact Habsent].
    destruct (base64urlToUint8Array_pure (publicKey (credentials userRecord)))
      as [[keyBytes|e2] ->]; js_run; [|exact Habsent].
    destruct (verifyAuthenticationResponse _) as [[[] [info|]]|err]; js_run;
      try exact Habsent.
    destruct (parseCoseP256Key_pure (publicKey (credentials userRecord)))
      as [[coords|e3] ->]; js_run.
    + destruct (decide (c = challenge)) as [->|Hne].
      * apply lookup_delete_eq.
      * now rewrite lookup_delete_ne.
    + destruct (decide (c = challenge)) as [->|Hne].
      * apply lookup_delete_eq.
      * now rewrite lookup_delete_ne.
Qed.

Lemma serve_keeps_consumed (requests : list Request) (w : World)
    (challenge : string) :
  loginChallengeMap w !! challenge = None ->
  (forall c, In (GenerateLoginOptions c) requests -> c <> challenge) ->
  loginChallengeMap (serve requests w) !! challenge = None.
Proof.
  revert w. induction requests as [|r rest IH]; intros w Habsent Hfresh.
  - exact Habsent.
  - cbn [serve]. apply IH.
    + apply handle_keeps_consumed; [exact Habsent|].
      intros ->. apply (Hfresh challenge); [now left | reflexivity].
    + intros c Hin. apply Hfresh. now right.
Qed.

(** C7. A login challenge that one [verify_login] call has consumed (the
    call found it in [loginChallengeMap] and removed it, which every call
    answering ok has done) is not found by any later [verify_login] call
    that presents it: whatever requests are served in between, short of
    [generate_login_options] issuing the same value again, such a call
    answers "Challenge not found or expired" and changes nothing. *)
Theorem consumed_login_challenge_is_not_found
    (credential : AuthenticationResponseJSON) (challenge : string) (w : World) :
  let w1 := fst (verify_login credential challenge w) in
  (forall xHex yHex,
     snd (verify_login credential challenge w)
     = Normal (json (LoginVerified xHex yHex)) ->
     loginChallengeMap w !! challenge <> None
     /\ loginChallengeMap w1 !! challenge = None)
  /\ (loginChallengeMap w1 !! challenge = None ->
      forall (requests : list Request) (credential' : AuthenticationResponseJSON),
        (forall c, In (GenerateLoginOptions c) requests -> c <> challenge) ->
        let w2 := serve requests w1 in
        verify_login credential' challenge w2
        = (w2, Normal (json_status
                         (ErrorBody "Challenge not found or expired") 400))).
Proof.
  intros w1. split.
  - subst w1. intros x y. js_run.
    destruct (loginChallengeMap w !! challenge) eqn:Hc; js_run;
      [|discriminate].
    destruct (JsString.truthy _) as [userId|]; js_run; [|discriminate].
    destruct (userDB w !! userId) as [userRecord|]; js_run; [|discriminate].
    destruct (base64urlToUint8Array_pure (credentialID (credentials userRecord)))
      as [[idBytes|e1] ->]; js_run; [|discriminate].
    destruct (base64urlToUint8Array_pure (publicKey (credentials userRecord)))
      as [[keyBytes|e2] ->]; js_run; [|discriminate].
    destruct (verifyAuthenticationResponse _) as [[[] [info|]]|err]; js_run;
      try discriminate.
    destruct (parseCoseP256Key_pure (publicKey (credentials userRecord)))
      as [[coords|e3] ->]; js_run; [|discriminate].
    intros _. split; [discriminate | apply lookup_delete_eq].
  - intros Hgone requests credential' Hfresh w2.
    pose proof (serve_keeps_consumed requests w1 challenge Hgone Hfresh) as E.
    fold w2 in E. js_run. rewrite E. reflexivity.
Qed.

End Handlers.

(** ** The signature counter *)

Section CounterRule.

Context `{CodecLibraries} `{WebAuthnServer}.

(** The counter that an assertion reports, as the verifier reads it. *)
Variable reported : AuthenticationResponseJSON -> N.

Hypothesis verifier_checks_counter : checks_counter reported.

(** C6, as amended. For every [verify_login] call that finds its challenge
    and a user with stored counter N: if the counter that the assertion
    reports is not strictly greater than N and the two are not both zero,
    the call answers 400 with the error of the replay and leaves the stored
    counter, and the three maps, unchanged; if the reported counter is
    strictly greater (or both are zero) and the verifier verifies the
    assertion, the stored counter is updated to the reported value and the
    challenge is removed, and the call answers ok with the coordinates
    whenever the stored public key decodes with [parseCoseP256Key]. *)
Theorem verify_login_counter
    (credential : AuthenticationResponseJSON) (challenge : string) (w : World)
    (userId : string) (userRecord : UserRecord) (idBytes keyBytes : list byte) :
  loginChallengeMap w !! challenge <> None ->
  JsString.truthy (userHandle (auth_response credential)) = Some userId ->
  userDB w !! userId = Some userRecord ->
  base64urlToUint8Array (credentialID (credentials userRecord)) w
  = (w, Normal idBytes) ->
  base64urlToUint8Array (publicKey (credentials userRecord)) w
  = (w, Normal keyBytes) ->
  let stored := counter (credentials userRecord) in
  let r := reported credential in
  let '(w', response) := verify_login credential challenge w in
  (counter_accepted r stored = false ->
   response
   = Normal (json_status
               (ErrorBody (message (ReplayDetectedError r stored))) 400)
   /\ stores w' = stores w
   /\ userDB w' !! userId = Some userRecord)
  /\ (counter_accepted r stored = true ->
      forall info : AuthenticationInfo,
        authentication_accepted
          (verifyAuthenticationResponse
             (authentication_opts credential challenge idBytes keyBytes stored))
        = Some info ->
        userDB w' !! userId
        = Some {| username := username userRecord;
                  credentials :=
                    {| credentialID := credentialID (credentials userRecord);
                       publicKey := publicKey (credentials userRecord);
                       counter := r |} |}
        /\ loginChallengeMap w' !! challenge = None
        /\ forall coords : Coordinates,
             parseCoseP256Key (publicKey (credentials userRecord)) w
             = (w, Normal coords) ->
             response
             = Normal (json (LoginVerified (xHex coords) (yHex coords)))).
Proof.
  intros Hc Hh Hu Hid Hkey stored r.
  pose proof (verifier_checks_counter
                (authentication_opts credential challenge idBytes keyBytes stored))
    as [Hreplay Hnew].
  cbn [authentication_opts va_response va_authenticator ad_counter] in Hreplay, Hnew.
  fold r in Hreplay, Hnew.
  js_run. destruct (loginChallengeMap w !! challenge) as [b|] eqn:Hl;
    [|contradiction]. js_run.
  rewrite Hh, Hu. js_run. rewrite Hid, Hkey. js_run.
  fold stored.
  fold (authentication_opts credential challenge idBytes keyBytes stored).
  unfold authentication_accepted.
  destruct (verifyAuthenticationResponse _) as [[verified oinfo]|err] eqn:Hv.
  - cbn [auth_verified authenticationInfo].
    destruct verified, oinfo as [info0|]; js_run;
      try (split; [intros Hrej; now specialize (Hreplay Hrej)
                  | intros _ info Hinfo; discriminate Hinfo]).
    specialize (Hnew _ info0 eq_refl eq_refl). rewrite Hnew.
    destruct (parseCoseP256Key_pure (publicKey (credentials userRecord)))
      as [c Hpure]. rewrite !Hpure.
    destruct c as [coords|e]; js_run.
    + split; [intros Hrej; now specialize (Hreplay Hrej)|].
      intros _ info _.
      split; [now rewrite lookup_alter_eq, Hu|].
      split; [apply lookup_delete_eq|].
      intros coords' E. now injection E as <-.
    + split; [intros Hrej; now specialize (Hreplay Hrej)|].
      intros _ info _.
      split; [now rewrite lookup_alter_eq, Hu|].
      split; [apply lookup_delete_eq|].
      intros coords' E. discriminate E.
  - js_run. split.
    + intros Hrej. specialize (Hreplay Hrej). injection Hreplay as ->.
      split; [reflexivity|]. split; [reflexivity | exact Hu].
    + intros _ info Hinfo. discriminate Hinfo.
Qed.

End CounterRule.

(** ** The handlers on concrete requests *)

Lemma accepting_checks_counter (info : RegistrationInfo) :
  @checks_counter (Reference.accepting info) Reference.signCount.
Proof.
  intros opts r n. cbn [verifyAuthenticationResponse Reference.accepting].
  fold r n. split.
  - intros ->. reflexivity.
  - intros v i. destruct (counter_accepted r n); [|discriminate].
    intros E. injection E as <-. cbn [authenticationInfo].
    intros E. now injection E as <-.
Qed.

(** Registration then login, from the empty world. *)
Example register_then_login :
  let library := Reference.accepting Sample.info in
  let w1 :=
    serve (H := Reference.codec) (H0 := library)
      [GenerateRegistrationOptions "alice" "user-1" "registration-challenge";
       VerifyRegistration "user-1" Sample.attestation;
       GenerateLoginOptions "login-challenge"]
      initial_world in
  userDB w1 !! "user-1"
  = Some {| username := "alice";
            credentials := {| credentialID := "AQIDBA";
                              publicKey := Sample.ec2_key;
                              counter := 0 |} |}
  /\ registrationChallengeMap w1 !! "user-1" = None
  /\ verify_login (H := Reference.codec) (H0 := library)
       (Sample.assertion Sample.data_counter_1) "login-challenge" w1
     = ({| userDB :=
             {[ "user-1" :=
                  {| username := "alice";
                     credentials := {| credentialID := "AQIDBA";
                                       publicKey := Sample.ec2_key;
                                       counter := 1 |} |} ]};
           registrationChallengeMap := ∅;
           loginChallengeMap := ∅;
           console := ["options login-challenge"] |},
        Normal (json (LoginVerified
          "25124ef991fb0b6b257769b5e1077d7eb5c95dfb367bc28d5e5a5fc173711c7f"
          "4e6813082bb4b7aff4e2365227d392e80fa794d16ca518d23231d144cbcc60e4"))).
Proof. vm_compute. repeat split; reflexivity. Qed.

(** A failed verification leaves the challenge in its map: the entry is
    not removed, neither by [verify_registration] nor by [verify_login]. *)
Lemma failed_verification_keeps_challenge :
  let w := Sample.world Sample.ec2_key 0 in
  (let '(w', response) :=
     verify_registration (H0 := Reference.rejecting)
       "user-1" Sample.attestation w in
   response
   = Normal (json_status (ErrorBody "Unexpected registration response") 400)
   /\ registrationChallengeMap w' !! "user-1" = Some "registration-challenge")
  /\ (let '(w', response) :=
        verify_login (H := Reference.codec) (H0 := Reference.rejecting)
          (Sample.assertion Sample.data_counter_1) "login-challenge" w in
      response
      = Normal (json_status (ErrorBody "Unexpected authentication response") 400)
      /\ loginChallengeMap w' !! "login-challenge" = Some true).
Proof. vm_compute. repeat split; reflexivity. Qed.

Lemma failed_verification_changes_no_store_witness :
  let w := Sample.world Sample.ec2_key 0 in
  stores
    (fst (verify_registration (H0 := Reference.unverifying)
            "user-1" Sample.attestation w))
  = stores w
  /\ stores
       (fst (verify_login (H := Reference.codec) (H0 := Reference.rejecting)
               (Sample.assertion Sample.data_counter_1) "login-challenge" w))
     = stores w.
Proof.
  intros w. split.
  - pose proof (proj1 (failed_verification_changes_no_store
                         (H := Reference.codec) (H0 := Reference.unverifying))
                  "user-1" Sample.attestation w "registration-challenge"
                  {| username := "alice";
                     credentials := {| credentialID := "AQIDBA";
                                       publicKey := Sample.ec2_key;
                                       counter := 0 |} |}
                  ltac:(vm_compute; reflexivity)
                  ltac:(vm_compute; reflexivity)
                  ltac:(vm_compute; reflexivity)) as T.
    destruct (verify_registration _ _ w) as [w' response].
    exact (proj1 T).
  - pose proof (proj2 (failed_verification_changes_no_store
                         (H := Reference.codec) (H0 := Reference.rejecting))
                  (Sample.assertion Sample.data_counter_1) "login-challenge" w
                  "user-1"
                  {| username := "alice";
                     credentials := {| credentialID := "AQIDBA";
                                       publicKey := Sample.ec2_key;
                                       counter := 0 |} |}
                  [Byte.x01; Byte.x02; Byte.x03; Byte.x04]
                  (Base64.Buffer_from_base64 Sample.ec2_key)
                  ltac:(vm_compute; discriminate)
                  ltac:(vm_compute; reflexivity)
                  ltac:(vm_compute; reflexivity)
                  ltac:(vm_compute; reflexivity)
                  ltac:(vm_compute; reflexivity)
                  ltac:(vm_compute; reflexivity)) as T.
    destruct (verify_login _ _ w) as [w' response].
    exact (proj1 T).
Defined.

(** A login whose assertion is verified, with a counter that advanced, can
    still answer with an error: the stored key is a COSE key without label
    -3, and the counter has been updated and the challenge removed before
    the key is decoded. *)
Lemma verified_login_fails_on_key_without_y :
  let w := Sample.world Sample.okp_key 0 in
  let credential := Sample.assertion Sample.data_counter_1 in
  let library := Reference.accepting Sample.info in
  let '(w', response) :=
    verify_login (H := Reference.codec) (H0 := library)
      credential "login-challenge" w in
  Reference.signCount credential = 1
  /\ counter_accepted 1 0 = true
  /\ authentication_accepted
       (verifyAuthenticationResponse (WebAuthnServer := library)
          (authentication_opts credential "login-challenge"
             [Byte.x01; Byte.x02; Byte.x03; Byte.x04]
             (Base64.Buffer_from_base64 Sample.okp_key) 0))
     = Some {| newCounter := 1 |}
  /\ response = Normal (json_status (ErrorBody "COSE key missing x or y") 400)
  /\ (counter <$> (credentials <$> userDB w' !! "user-1")) = Some 1
  /\ loginChallengeMap w' !! "login-challenge" = None.
Proof. vm_compute. repeat split; reflexivity. Qed.

Lemma verify_login_counter_witness :
  let library := Reference.accepting Sample.info in
  (let '(w', response) :=
     verify_login (H := Reference.codec) (H0 := library)
       (Sample.assertion Sample.data_counter_5) "login-challenge"
       (Sample.world Sample.ec2_key 5) in
   response
   = Normal (json_status
               (ErrorBody "Response counter value 5 was lower than expected 5")
               400)
   /\ stores w' = stores (Sample.world Sample.ec2_key 5))
  /\ (let '(w', response) :=
        verify_login (H := Reference.codec) (H0 := library)
          (Sample.assertion Sample.data_counter_5) "login-challenge"
          (Sample.world Sample.ec2_key 4) in
      (counter <$> (credentials <$> userDB w' !! "user-1")) = Some 5
      /\ loginChallengeMap w' !! "login-challenge" = None
      /\ response
         = Normal (json (LoginVerified
             "25124ef991fb0b6b257769b5e1077d7eb5c95dfb367bc28d5e5a5fc173711c7f"
             "4e6813082bb4b7aff4e2365227d392e80fa794d16ca518d23231d144cbcc60e4"))).
Proof.
  intros library.
  pose (record := fun stored : N =>
          {| username := "alice";
             credentials := {| credentialID := "AQIDBA";
                               publicKey := Sample.ec2_key;
                               counter := stored |} |}).
  split.
  - pose proof (verify_login_counter (H := Reference.codec) (H0 := library)
                  Reference.signCount (accepting_checks_counter Sample.info)
                  (Sample.assertion Sample.data_counter_5) "login-challenge"
                  (Sample.world Sample.ec2_key 5) "user-1" (record 5)
                  [Byte.x01; Byte.x02; Byte.x03; Byte.x04]
                  (Base64.Buffer_from_base64 Sample.ec2_key)
                  ltac:(vm_compute; discriminate)
                  ltac:(vm_compute; reflexivity)
                  ltac:(vm_compute; reflexivity)
                  ltac:(vm_compute; reflexivity)
                  ltac:(vm_compute; reflexivity)) as T.
    cbv zeta in T.
    destruct (verify_login _ _ (Sample.world Sample.ec2_key 5)) as [w' response].
    destruct (proj1 T ltac:(vm_compute; reflexivity)) as (R & S & _).
    split; [|exact S]. rewrite R. vm_compute. reflexivity.
  - pose proof (verify_login_counter (H := Reference.codec) (H0 := library)
                  Reference.signCount (accepting_checks_counter Sample.info)
                  (Sample.assertion Sample.data_counter_5) "login-challenge"
                  (Sample.world Sample.ec2_key 4) "user-1" (record 4)
                  [Byte.x01; Byte.x02; Byte.x03; Byte.x04]
                  (Base64.Buffer_from_base64 Sample.ec2_key)
                  ltac:(vm_compute; discriminate)
                  ltac:(vm_compute; reflexivity)
                  ltac:(vm_compute; reflexivity)
                  ltac:(vm_compute; reflexivity)
                  ltac:(vm_compute; reflexivity)) as T.
    cbv zeta in T.
    destruct (verify_login _ _ (Sample.world Sample.ec2_key 4)) as [w' response].
    destruct (proj2 T ltac:(vm_compute; reflexivity) {| newCounter := 5 |}
                ltac:(vm_compute; reflexivity)) as (U & L & R).
    split; [|split; [exact L|]].
    + rewrite U. vm_compute. reflexivity.
    + rewrite (R {| xHex := "25124ef991fb0b6b257769b5e1077d7eb5c95dfb367bc28d5e5a5fc173711c7f";
                    yHex := "4e6813082bb4b7aff4e2365227d392e80fa794d16ca518d23231d144cbcc60e4" |}
                 ltac:(vm_compute; reflexivity)).
      reflexivity.
Defined.

Lemma consumed_login_challenge_is_not_found_witness :
  let library := Reference.accepting Sample.info in
  let w1 :=
    fst (verify_login (H := Reference.codec) (H0 := library)
           (Sample.assertion Sample.data_counter_1) "login-challenge"
           (Sample.world Sample.ec2_key 0)) in
  let w2 :=
    serve (H := Reference.codec) (H0 := library)
      [GenerateLoginOptions "another-challenge";
       VerifyLogin (Sample.assertion Sample.data_counter_5) "login-challenge"]
      w1 in
  loginChallengeMap w1 !! "login-challenge" = None
  /\ verify_login (H := Reference.codec) (H0 := library)
       (Sample.assertion Sample.data_counter_5) "login-challenge" w2
     = (w2, Normal (json_status
                      (ErrorBody "Challenge not found or expired") 400)).
Proof.
  intros library w1 w2.
  assert (Hgone : loginChallengeMap w1 !! "login-challenge" = None)
    by (vm_compute; reflexivity).
  split; [exact Hgone|].
  apply (proj2 (consumed_login_challenge_is_not_found
                  (H := Reference.codec) (H0 := library)
                  (Sample.assertion Sample.data_counter_1) "login-challenge"
                  (Sample.world Sample.ec2_key 0)) Hgone).
  intros c [E|[E|[]]]; [|discriminate E].
  injection E as <-. discriminate.
Defined.

(** ** Worlds the server can reach *)

Section Reachable.

Context `{CodecLibraries} `{WebAuthnServer}.

Lemma handle_credentials_decode (r : Request) (w : World) :
  credentials_decode w -> credentials_decode (fst (handle r w)).
Proof.
  intros Hw.
  destruct r as [userName uuid c|userId credential|c|credential c]; js_run.
  - destruct (userDB w !! uuid) eqn:Hu; js_run; [exact Hw|].
    intros k record. cbn [userDB].
    destruct (decide (uuid = k)) as [->|Hne].
    + rewrite lookup_insert_eq. intros E. injection E as <-.
      exists [], []. intros w'. split; reflexivity.
    + rewrite lookup_insert_ne by exact Hne. apply Hw.
  - destruct (JsString.truthy _); js_run; [|exact Hw].
    destruct (userDB w !! userId) as [userRecord|]; js_run; [|exact Hw].
    destruct (verifyRegistrationResponse _) as [[[] [info|]]|err]; js_run;
      try exact Hw.
    intros k record. cbn [userDB].
    destruct (decide (userId = k)) as [->|Hne].
    + rewrite lookup_insert_eq. intros E. injection E as <-.
      exists (ri_credentialID info), (ri_credentialPublicKey info).
      intros w'. cbn [credentials credentialID publicKey].
      split; apply base64urlToUint8Array_of_encoded.
    + rewrite lookup_insert_ne by exact Hne. apply Hw.
  - exact Hw.
  - destruct (loginChallengeMap w !! c); js_run; [|exact Hw].
    destruct (JsString.truthy _) as [userId|]; js_run; [|exact Hw].
    destruct (userDB w !! userId) as [userRecord|] eqn:Hu; js_run; [|exact Hw].
    destruct (base64urlToUint8Array_pure (credentialID (credentials userRecord)))
      as [[idBytes|e1] ->]; js_run; [|exact Hw].
    destruct (base64urlToUint8Array_pure (publicKey (credentials userRecord)))
      as [[keyBytes|e2] ->]; js_run; [|exact Hw].
    destruct (verifyAuthenticationResponse _) as [[[] [info|]]|err]; js_run;
      try exact Hw.
    destruct (parseCoseP256Key_pure (publicKey (credentials userRecord)))
      as [[coords|e3] ->]; js_run;
      (intros k record; cbn [userDB];
       destruct (decide (userId = k)) as [<-|Hne];
       [rewrite lookup_alter_eq, Hu; intros E; injection E as <-;
        cbn [credentials credentialID publicKey]; exact (Hw _ _ Hu)
       |rewrite lookup_alter_ne by exact Hne; apply Hw]).
Qed.

(** In every world that the server reaches from the empty one, the stored
    credential texts decode: the hypotheses of the login properties on the
    two [base64urlToUint8Array] calls hold there. *)
Lemma reachable_credentials_decode (requests : list Request) :
  credentials_decode (serve requests initial_world).
Proof.
  assert (G : forall w, credentials_decode w ->
                        credentials_decode (serve requests w)).
  { induction requests as [|r rest IH]; intros w Hw; [exact Hw|].
    cbn [serve]. apply IH. now apply handle_credentials_decode. }
  apply G. intros k record E. cbn [initial_world userDB] in E.
  rewrite lookup_empty in E. discriminate E.
Qed.

End Reachable.

(** * Further properties of the code *)

(** ** The first server: [/register] and [/login] *)

Section SimpleServer.

Variable jwt_sign : string -> Completion string.

Lemma simple_serve_lookup
    (requests : list Simple.Request) (db : gmap string string) (userId : string) :
  Simple.serve jwt_sign requests db !! userId
  = match db !! userId with
    | Some key => Some key
    | None => Simple.first_key userId requests
    end.
Proof.
  revert db. induction requests as [|r rest IH]; intros db.
  - cbn [Simple.serve Simple.first_key]. now destruct (db !! userId).
  - cbn [Simple.serve]. rewrite IH. destruct r as [u k|u].
    + cbn [Simple.handle Simple.first_key]. unfold Simple.register.
      destruct (String.eqb_spec u userId) as [->|Hne].
      * destruct (db !! userId) eqn:E; cbn [fst].
        -- now rewrite E.
        -- now rewrite lookup_insert_eq.
      * destruct (db !! u) eqn:E; cbn [fst]; [reflexivity|].
        now rewrite lookup_insert_ne.
    + cbn [Simple.handle Simple.first_key]. unfold Simple.login.
      destruct (db !! u); [destruct (jwt_sign u)|]; reflexivity.
Qed.

(** X1. [/register] never overwrites: after any sequence of requests, the
    key stored for a user is the one that was there before, or else the key
    of the first [/register] request for that user in the sequence; later
    registrations of the same user change nothing, and a registration of a
    user that is already there answers 400 and leaves the whole map as it
    was. *)
Theorem simple_first_registration_wins
    (requests : list Simple.Request) (db : gmap string string)
    (userId publicKey : string) :
  Simple.serve jwt_sign requests db !! userId
  = match db !! userId with
    | Some key => Some key
    | None => Simple.first_key userId requests
    end
  /\ match db !! userId with
     | Some key =>
         Simple.register userId publicKey db
         = (db, Normal {| Simple.reply_body :=
                            Simple.ErrorReply "User already exists";
                          Simple.reply_status := 400 |})
     | None =>
         Simple.serve jwt_sign (Simple.Register userId publicKey :: requests) db
           !! userId = Some publicKey
     end.
Proof.
  split; [apply simple_serve_lookup|].
  destruct (db !! userId) as [key|] eqn:E.
  - unfold Simple.register. now rewrite E.
  - rewrite simple_serve_lookup, E. cbn [Simple.first_key].
    now rewrite String.eqb_refl.
Qed.

(** X2. After any sequence of requests on the empty map, [/login] answers
    404 "User not found" exactly when no [/register] for that user was
    among them, and then the signer is not consulted; otherwise the answer
    is the signer's: its token with status 200, or what it throws.  [/login]
    never changes the map. *)
Theorem simple_login_after_requests
    (requests : list Simple.Request) (userId : string) :
  let db := Simple.serve jwt_sign requests ∅ in
  Simple.login jwt_sign userId db
  = (db,
     match Simple.first_key userId requests with
     | None =>
         Normal {| Simple.reply_body := Simple.ErrorReply "User not found";
                   Simple.reply_status := 404 |}
     | Some _ =>
         match jwt_sign userId with
         | Normal token =>
             Normal {| Simple.reply_body := Simple.TokenReply token;
                       Simple.reply_status := 200 |}
         | Thrown e => Thrown e
         end
     end).
Proof.
  intros db. unfold Simple.login.
  pose proof (simple_serve_lookup requests ∅ userId) as E.
  fold db in E. rewrite lookup_empty in E. rewrite E.
  destruct (Simple.first_key userId requests); [|reflexivity].
  now destruct (jwt_sign userId).
Qed.

End SimpleServer.

(** ** The passkey server: issuing and consuming challenges *)

(** Case analysis on every test a handler makes. *)
Ltac handler_cases :=
  js_run;
  repeat
    (first
       [ match goal with
         | |- context [base64urlToUint8Array ?s _] =>
             destruct (base64urlToUint8Array_pure s) as [[?bytes|?e] ->]
         end
       | match goal with
         | |- context [parseCoseP256Key ?s _] =>
             destruct (parseCoseP256Key_pure s) as [[?coords|?e] ->]
         end
       | match goal with
         | |- context [match ?x with _ => _ end] =>
             lazymatch x with
             | context [match _ with _ => _ end] => fail
             | _ => destruct x eqn:?
             end
         end ];
     js_run).

Section Challenges.

Context `{CodecLibraries} `{WebAuthnServer}.

Lemma serve_preserves (P : World -> Prop) (allowed : Request -> bool) :
  (forall r w, allowed r = true -> P w -> P (fst (handle r w))) ->
  forall requests w,
    forallb allowed requests = true -> P w -> P (serve requests w).
Proof.
  intros Hstep requests.
  induction requests as [|r rest IH]; intros w Hall Hw; [exact Hw|].
  cbn [forallb] in Hall. apply andb_prop in Hall as [Hr Hrest].
  cbn [serve]. apply IH; [exact Hrest|]. now apply Hstep.
Qed.

(** X3. [generate_registration_options] stores the placeholder record
    (empty credential, counter 0) only for a user that is not there yet: a
    record already stored under the identifier is kept as it is, and the
    answer carries the stored user name, not the requested one.  The new
    challenge replaces any pending one of that user; the login challenges
    and the console are untouched. *)
Theorem generate_registration_options_effect
    (userName uuid challenge : string) (w : World) :
  let '(w', response) :=
    generate_registration_options userName uuid challenge w in
  let stored :=
    match userDB w !! uuid with
    | Some userRecord => userRecord
    | None => placeholder userName
    end in
  userDB w' = <[uuid := stored]> (userDB w)
  /\ registrationChallengeMap w'
     = <[uuid := challenge]> (registrationChallengeMap w)
  /\ loginChallengeMap w' = loginChallengeMap w
  /\ console w' = console w
  /\ response
     = Normal (json (RegistrationOptionsBody
         {| ro_challenge := challenge;
            ro_rpName := "EXAMPLE_APP";
            ro_rpID := "example.com";
            ro_userID := uuid;
            ro_userName := username stored;
            ro_supportedAlgorithmIDs := [(-7)%Z];
            ro_userVerification := "required";
            ro_residentKey := "required" |})).
Proof.
  js_run. destruct (userDB w !! uuid) as [userRecord|] eqn:E; js_run.
  - repeat split; try reflexivity. symmetry. now apply insert_id.
  - repeat split; reflexivity.
Qed.

(** X4. The challenge that [verify_registration] hands to the verifier is
    the one last issued to that user: right after
    [generate_registration_options], a call for the same user is decided by
    the verifier on that challenge, the relying party "example.com", the
    origin "ORIGIN" and required user verification.  When it verifies, the
    record keeps the stored user name, takes the verified credential, and
    the challenge is removed; when it does not, the three maps stay as they
    were.  An empty challenge counts as none: the call answers "No
    challenge found for user" without consulting the verifier. *)
Theorem issued_challenge_is_expected
    (userName uuid challenge : string) (credential : RegistrationResponseJSON)
    (w : World) :
  let w1 := fst (generate_registration_options userName uuid challenge w) in
  let stored :=
    match userDB w !! uuid with
    | Some userRecord => userRecord
    | None => placeholder userName
    end in
  let '(w2, response) := verify_registration uuid credential w1 in
  match challenge with
  | EmptyString =>
      w2 = w1
      /\ response
         = Normal (json_status (ErrorBody "No challenge found for user") 400)
  | _ =>
      match registration_accepted
              (verifyRegistrationResponse
                 {| vr_response := credential;
                    vr_expectedChallenge := challenge;
                    vr_expectedRPID := "example.com";
                    vr_expectedOrigin := "ORIGIN";
                    vr_requireUserVerification := true |}) with
      | Some info =>
          response = Normal (json RegistrationVerified)
          /\ userDB w2 !! uuid
             = Some {| username := username stored;
                       credentials :=
                         {| credentialID :=
                              uint8ArrayToBase64Url (ri_credentialID info);
                            publicKey :=
                              uint8ArrayToBase64Url (ri_credentialPublicKey info);
                            counter := ri_counter info |} |}
          /\ registrationChallengeMap w2 !! uuid = None
      | None =>
          stores w2 = stores w1
          /\ exists error,
               response = Normal (json_status (ErrorBody error) 400)
      end
  end.
Proof.
  intros w1 stored.
  assert (Hc : registrationChallengeMap w1 !! uuid = Some challenge).
  { subst w1. js_run. destruct (userDB w !! uuid); js_run;
      apply lookup_insert_eq. }
  assert (Hu : userDB w1 !! uuid = Some stored).
  { subst w1 stored. js_run. destruct (userDB w !! uuid) eqn:E; js_run;
      [exact E | apply lookup_insert_eq]. }
  clearbody w1 stored. js_run. rewrite Hc.
  destruct challenge as [|c0 rest]; cbn [JsString.truthy]; js_run;
    [split; reflexivity|].
  rewrite Hu. js_run. unfold registration_accepted.
  change rpID with "example.com". change ORIGIN with "ORIGIN".
  destruct (verifyRegistrationResponse _) as [[[] [info|]]|err]; js_run;
    try (split; [reflexivity | eexists; reflexivity]).
  split; [reflexivity|]. split; [apply lookup_insert_eq | apply lookup_delete_eq].
Qed.

End Challenges.

(** ** The passkey server: what a sequence of requests keeps *)

Section Invariants.

Context `{CodecLibraries} `{WebAuthnServer}.

Lemma handle_keeps_registration_consumed (userId : string) (r : Request)
    (w : World) :
  negb (issues_registration_for userId r) = true ->
  registrationChallengeMap w !! userId = None ->
  registrationChallengeMap (fst (handle r w)) !! userId = None.
Proof.
  intros Hr Habsent.
  destruct r as [userName uuid c|u credential|c|credential c];
    cbn [issues_registration_for negb] in Hr; handler_cases;
    try exact Habsent.
  - apply negb_true_iff, String.eqb_neq in Hr.
    now rewrite lookup_insert_ne.
  - apply negb_true_iff, String.eqb_neq in Hr.
    now rewrite lookup_insert_ne.
  - destruct (decide (u = userId)) as [->|Hne];
      [apply lookup_delete_eq | now rewrite lookup_delete_ne].
Qed.

(** X5. A registration challenge is used once: after a
    [verify_registration] call that answered ok, any later call for the
    same user answers "No challenge found for user" and changes nothing,
    whatever requests are served in between, until
    [generate_registration_options] is called again for that user. *)
Theorem registration_challenge_is_used_once
    (userId : string) (credential credential' : RegistrationResponseJSON)
    (w : World) (requests : list Request) :
  snd (verify_registration userId credential w)
  = Normal (json RegistrationVerified) ->
  forallb (fun r => negb (issues_registration_for userId r)) requests = true ->
  let w2 := serve requests (fst (verify_registration userId credential w)) in
  verify_registration userId credential' w2
  = (w2, Normal (json_status (ErrorBody "No challenge found for user") 400)).
Proof.
  intros Hok Hreq w2.
  assert (Hgone : registrationChallengeMap
                    (fst (verify_registration userId credential w)) !! userId
                  = None).
  { revert Hok. handler_cases; try discriminate.
    intros _. apply lookup_delete_eq. }
  assert (E : registrationChallengeMap w2 !! userId = None).
  { subst w2.
    apply (serve_preserves
             (fun w => registrationChallengeMap w !! userId = None)
             (fun r => negb (issues_registration_for userId r)));
      [|exact Hreq|exact Hgone].
    intros r w0. apply handle_keeps_registration_consumed. }
  js_run. rewrite E. reflexivity.
Qed.

Lemma handle_keeps_login_challenge (challenge : string) (r : Request)
    (w : World) :
  negb (verifies_login_with challenge r) = true ->
  loginChallengeMap w !! challenge <> None ->
  loginChallengeMap (fst (handle r w)) !! challenge <> None.
Proof.
  intros Hr Hthere.
  destruct r as [userName uuid c|u credential|c|credential c];
    cbn [verifies_login_with negb] in Hr; handler_cases;
    try exact Hthere.
  - destruct (decide (c = challenge)) as [->|Hne];
      [now rewrite lookup_insert_eq | now rewrite lookup_insert_ne].
  - apply negb_true_iff, String.eqb_neq in Hr. now rewrite lookup_delete_ne.
  - apply negb_true_iff, String.eqb_neq in Hr. now rewrite lookup_delete_ne.
Qed.

Lemma handle_keeps_registration_challenge (userId : string) (r : Request)
    (w : World) :
  negb (verifies_registration_of userId r) = true ->
  registrationChallengeMap w !! userId <> None ->
  registrationChallengeMap (fst (handle r w)) !! userId <> None.
Proof.
  intros Hr Hthere.
  destruct r as [userName uuid c|u credential|c|credential c];
    cbn [verifies_registration_of negb] in Hr; handler_cases;
    try exact Hthere.
  - destruct (decide (uuid = userId)) as [->|Hne];
      [now rewrite lookup_insert_eq | now rewrite lookup_insert_ne].
  - destruct (decide (uuid = userId)) as [->|Hne];
      [now rewrite lookup_insert_eq | now rewrite lookup_insert_ne].
  - apply negb_true_iff, String.eqb_neq in Hr. now rewrite lookup_delete_ne.
Qed.

(** X6. Challenges do not expire: a login challenge that is outstanding
    stays outstanding through any requests other than a [verify_login] that
    presents it, and right after [generate_login_options] the challenge is
    outstanding; a user's pending registration challenge stays pending
    through any requests other than a [verify_registration] for that
    user. *)
Theorem outstanding_challenges_do_not_expire
    (requests : list Request) (w : World) (challenge userId : string) :
  (forallb (fun r => negb (verifies_login_with challenge r)) requests = true ->
   loginChallengeMap (serve requests (fst (generate_login_options challenge w)))
     !! challenge <> None)
  /\ (forallb (fun r => negb (verifies_login_with challenge r)) requests = true ->
      loginChallengeMap w !! challenge <> None ->
      loginChallengeMap (serve requests w) !! challenge <> None)
  /\ (forallb (fun r => negb (verifies_registration_of userId r)) requests = true ->
      registrationChallengeMap w !! userId <> None ->
      registrationChallengeMap (serve requests w) !! userId <> None).
Proof.
  assert (L : forall w0,
    forallb (fun r => negb (verifies_login_with challenge r)) requests = true ->
    loginChallengeMap w0 !! challenge <> None ->
    loginChallengeMap (serve requests w0) !! challenge <> None).
  { intros w0 Hreq Hthere.
    apply (serve_preserves
             (fun w => loginChallengeMap w !! challenge <> None)
             (fun r => negb (verifies_login_with challenge r)));
      [|exact Hreq|exact Hthere].
    intros r w1. apply handle_keeps_login_challenge. }
  split; [|split].
  - intros Hreq. apply L; [exact Hreq|]. js_run. now rewrite lookup_insert_eq.
  - apply L.
  - intros Hreq Hthere.
    apply (serve_preserves
             (fun w => registrationChallengeMap w !! userId <> None)
             (fun r => negb (verifies_registration_of userId r)));
      [|exact Hreq|exact Hthere].
    intros r w1. apply handle_keeps_registration_challenge.
Qed.

(** X7. A [verify_login] call whose challenge is outstanding but whose
    assertion names no user (no user handle, or an empty one) answers 400
    "UserId Not Found", and one that names a user that is not stored
    answers 400 "User Not Found"; in both cases the world is exactly as
    before, so the challenge is still outstanding. *)
Theorem verify_login_without_user
    (credential : AuthenticationResponseJSON) (challenge : string) (w : World) :
  loginChallengeMap w !! challenge <> None ->
  match JsString.truthy (userHandle (auth_response credential)) with
  | None =>
      verify_login credential challenge w
      = (w, Normal (json_status (ErrorBody "UserId Not Found") 400))
  | Some userId =>
      userDB w !! userId = None ->
      verify_login credential challenge w
      = (w, Normal (json_status (ErrorBody "User Not Found") 400))
  end.
Proof.
  intros Hc. js_run.
  destruct (loginChallengeMap w !! challenge); [|contradiction]. js_run.
  destruct (JsString.truthy _) as [userId|]; js_run; [|reflexivity].
  intros ->. reflexivity.
Qed.

Lemma handle_keeps_user (k : string) (r : Request) (w : World)
    (record : UserRecord) :
  userDB w !! k = Some record ->
  exists record',
    userDB (fst (handle r w)) !! k = Some record'
    /\ username record' = username record
    /\ (negb (verifies_registration_of k r) = true ->
        credentialID (credentials record') = credentialID (credentials record)
        /\ publicKey (credentials record') = publicKey (credentials record)).
Proof.
  intros Hk.
  destruct r as [userName uuid c|u credential|c|credential c];
    cbn [verifies_registration_of negb]; handler_cases;
    try (exists record; repeat split; [exact Hk]).
  - destruct (decide (uuid = k)) as [->|Hne]; [congruence|].
    exists record. rewrite lookup_insert_ne by exact Hne. now repeat split.
  - destruct (decide (u = k)) as [->|Hne].
    + rewrite lookup_insert_eq. eexists. split; [reflexivity|].
      cbn [username]. split; [congruence|].
      intros E. apply negb_true_iff, String.eqb_neq in E. now destruct E.
    + exists record. rewrite lookup_insert_ne by exact Hne. now repeat split.
  - destruct (decide (s = k)) as [->|Hne].
    + rewrite lookup_alter_eq, Hk. eexists. split; [reflexivity|].
      now repeat split.
    + exists record. rewrite lookup_alter_ne by exact Hne. now repeat split.
  - destruct (decide (s = k)) as [->|Hne].
    + rewrite lookup_alter_eq, Hk. eexists. split; [reflexivity|].
      now repeat split.
    + exists record. rewrite lookup_alter_ne by exact Hne. now repeat split.
Qed.

(** X8. No request removes a user or changes a user name: a user stored in
    the world is still stored after any sequence of requests, under the
    same name. *)
Theorem users_are_kept (requests : list Request) (w : World) (k : string)
    (record : UserRecord) :
  userDB w !! k = Some record ->
  exists record',
    userDB (serve requests w) !! k = Some record'
    /\ username record' = username record.
Proof.
  revert w record. induction requests as [|r rest IH]; intros w record Hk.
  - exists record. now split.
  - cbn [serve].
    destruct (handle_keeps_user k r w record Hk) as (r1 & H1 & N1 & _).
    destruct (IH _ _ H1) as (r2 & H2 & N2).
    exists r2. split; [exact H2 | congruence].
Qed.

(** X9. The credential identifier and the public key stored for a user
    change only through a [verify_registration] for that user: any sequence
    of other requests, logins included, leaves both texts as they were. *)
Theorem credential_changes_only_by_registration
    (requests : list Request) (w : World) (k : string) (record : UserRecord) :
  userDB w !! k = Some record ->
  forallb (fun r => negb (verifies_registration_of k r)) requests = true ->
  exists record',
    userDB (serve requests w) !! k = Some record'
    /\ credentialID (credentials record') = credentialID (credentials record)
    /\ publicKey (credentials record') = publicKey (credentials record).
Proof.
  revert w record.
  induction requests as [|r rest IH]; intros w record Hk Hreq.
  - exists record. now repeat split.
  - cbn [forallb] in Hreq. apply andb_prop in Hreq as [Hr Hrest].
    cbn [serve].
    destruct (handle_keeps_user k r w record Hk) as (r1 & H1 & _ & C1).
    destruct (C1 Hr) as [I1 K1].
    destruct (IH _ _ H1 Hrest) as (r2 & H2 & I2 & K2).
    exists r2. split; [exact H2|]. split; congruence.
Qed.

End Invariants.

(** ** The passkey server: responses and reachable worlds *)

Section Responses.

Context `{CodecLibraries} `{WebAuthnServer}.


Lemma handle_challenges_have_users (r : Request) (w : World) :
  challenges_have_users w -> challenges_have_users (fst (handle r w)).
Proof.
  intros Hw k.
  destruct r as [userName uuid c|u credential|c|credential c];
    handler_cases; try apply Hw.
  - destruct (decide (uuid = k)) as [->|Hne]; [congruence|].
    rewrite lookup_insert_ne by exact Hne. apply Hw.
  - destruct (decide (uuid = k)) as [->|Hne].
    + intros _. rewrite lookup_insert_eq. discriminate.
    + rewrite !lookup_insert_ne by exact Hne. apply Hw.
  - destruct (decide (u = k)) as [->|Hne].
    + rewrite lookup_delete_eq. congruence.
    + rewrite lookup_delete_ne, lookup_insert_ne by exact Hne. apply Hw.
  - intros Hc. rewrite lookup_alter_None. now apply Hw.
  - intros Hc. rewrite lookup_alter_None. now apply Hw.
Qed.

Lemma reachable_challenges_have_users (requests : list Request) :
  challenges_have_users (serve requests initial_world).
Proof.
  assert (G : forall w, challenges_have_users w ->
                        challenges_have_users (serve requests w)).
  { induction requests as [|r rest IH]; intros w Hw; [exact Hw|].
    cbn [serve]. apply IH. now apply handle_challenges_have_users. }
  apply G. intros k E. cbn [initial_world registrationChallengeMap] in E.
  now rewrite lookup_empty in E.
Qed.

(** X11. In every world that the server reaches from the empty one, each
    pending registration challenge belongs to a stored user, so
    [verify_registration] never answers 404 "User not found": its only
    error answers are the 400s. *)
Theorem verify_registration_always_finds_user
    (requests : list Request) (userId : string)
    (credential : RegistrationResponseJSON) :
  let w := serve requests initial_world in
  challenges_have_users w
  /\ snd (verify_registration userId credential w)
     <> Normal (json_status (ErrorBody "User not found") 404).
Proof.
  intros w. pose proof (reachable_challenges_have_users requests) as Hw.
  fold w in Hw. split; [exact Hw|].
  specialize (Hw userId). js_run.
  destruct (registrationChallengeMap w !! userId) as [c|] eqn:Hc;
    [|cbn [JsString.truthy]; js_run; discriminate].
  destruct (JsString.truthy (Some c)); js_run; [|discriminate].
  destruct (userDB w !! userId) as [record|];
    [|now destruct Hw].
  js_run.
  destruct (verifyRegistrationResponse _) as [[[] [info|]]|err]; js_run;
    discriminate.
Qed.

End Responses.

(** ** The passkey server: the stored counter *)

Section CounterKept.

Context `{CodecLibraries} `{WebAuthnServer}.

Variable reported : AuthenticationResponseJSON -> N.

Hypothesis verifier_checks_counter : checks_counter reported.




End CounterKept.

(** ** The encoders and decoders of the client *)

Lemma append_empty (s : string) : s +:+ EmptyString = s.
Proof.
  induction s as [|c s IH]; [reflexivity|].
  change (String c s +:+ EmptyString) with (String c (s +:+ EmptyString)).
  now rewrite IH.
Qed.

Lemma from_url_append_padding (s : string) (k : nat) :
  from_url (s +:+ JsString.repeat_eq k) = from_url s +:+ JsString.repeat_eq k.
Proof.
  unfold from_url. rewrite !replace_all_append.
  now rewrite !replace_all_repeat_eq by reflexivity.
Qed.

(** X13. The decoder of the client and the decoder of the server are the
    same function: on every text and in every world, [b64ToBytes] and
    [base64urlToUint8Array] return the same bytes or throw the same
    error. *)
Theorem b64ToBytes_is_base64urlToUint8Array (text : string) (w : World) :
  b64ToBytes text w = base64urlToUint8Array text w.
Proof.
  unfold b64ToBytes, base64urlToUint8Array. cbv zeta.
  fold (from_url text).
  fold (from_url (text +:+ JsString.repeat_eq
                    (N.to_nat ((4 - JsString.length text mod 4) mod 4)))).
  rewrite from_url_append_padding.
  unfold JsString.padEnd_eq.
  replace (JsString.length (from_url text)) with (JsString.length text)
    by (unfold JsString.length, from_url; now rewrite !length_replace_all).
  replace (JsString.length text + (4 - JsString.length text mod 4) mod 4
           - JsString.length text)
    with ((4 - JsString.length text mod 4) mod 4)
    by (rewrite N.add_comm; symmetry; apply N.add_sub).
  reflexivity.
Qed.

Lemma remove_all_eq_padding (t : string) (k : nat) :
  all_chars (fun c => negb (Ascii.eqb c "=")) t = true ->
  JsString.remove_all "=" (t +:+ JsString.repeat_eq k) = t.
Proof.
  induction t as [|c t IH].
  - intros _. induction k as [|k IHk]; [reflexivity | exact IHk].
  - cbn [all_chars]. intros E. apply andb_prop in E as [Ec Et].
    apply negb_true_iff in Ec.
    change (String c t +:+ JsString.repeat_eq k)
      with (String c (t +:+ JsString.repeat_eq k)).
    cbn [JsString.remove_all]. now rewrite Ec, IH.
Qed.

(** X14. The encoder of the application screen and the encoder of the
    server write the same text for every byte array, so what the screen
    encodes with [bufferToBase64URLString] the server decodes with
    [base64urlToUint8Array] to the same bytes. *)
Theorem bufferToBase64URLString_is_uint8ArrayToBase64Url
    (buffer : list byte) (w : World) :
  bufferToBase64URLString buffer = uint8ArrayToBase64Url buffer
  /\ base64urlToUint8Array (bufferToBase64URLString buffer) w
     = (w, Normal buffer).
Proof.
  assert (E : bufferToBase64URLString buffer = uint8ArrayToBase64Url buffer).
  { rewrite uint8ArrayToBase64Url_shape.
    unfold bufferToBase64URLString, btoa. cbv zeta.
    rewrite list_byte_of_string_of_list_byte, encode_shape.
    fold (to_url (text_of_sextets (sextets_of_bytes buffer)
                  +:+ JsString.repeat_eq (padding_of_bytes buffer))).
    unfold to_url at 1. rewrite !replace_all_append.
    rewrite !replace_all_repeat_eq by reflexivity.
    fold (to_url (text_of_sextets (sextets_of_bytes buffer))).
    apply remove_all_eq_padding, to_url_no_eq, all_chars_text_of_sextets,
      sextets_of_bytes_bounded. }
  split; [exact E|]. rewrite E. apply base64urlToUint8Array_of_encoded.
Qed.

(** *** The strict and the lenient reading of a text *)

Lemma sextets_lenient_append_padding (x : string) (j : nat) :
  Base64.sextets_lenient (x +:+ JsString.repeat_eq j)
  = Base64.sextets_lenient x.
Proof.
  induction x as [|c x IH].
  - destruct j; reflexivity.
  - change (String c x +:+ JsString.repeat_eq j)
      with (String c (x +:+ JsString.repeat_eq j)).
    cbn [Base64.sextets_lenient]. now rewrite IH.
Qed.

Lemma sextets_lenient_from_url (x : string) :
  Base64.sextets_lenient (from_url x) = Base64.sextets_lenient x.
Proof.
  rewrite <- (sextets_lenient_padded x 0).
  now rewrite sextets_lenient_append_padding.
Qed.

Lemma whitespace_is_skipped (c : ascii) :
  Base64.is_ascii_whitespace c = true ->
  Ascii.eqb c "=" = false /\ Base64.sextet_of_char_lenient c = None.
Proof.
  destruct c as [[] [] [] [] [] [] [] []]; intros E;
    solve [discriminate E | split; reflexivity].
Qed.

Lemma sextets_lenient_remove_whitespace (x : string) :
  Base64.sextets_lenient (Base64.remove_whitespace x)
  = Base64.sextets_lenient x.
Proof.
  induction x as [|c x IH]; [reflexivity|].
  cbn [Base64.remove_whitespace].
  destruct (Base64.is_ascii_whitespace c) eqn:E.
  - destruct (whitespace_is_skipped c E) as [E1 E2].
    cbn [Base64.sextets_lenient]. now rewrite E1, E2.
  - cbn [Base64.sextets_lenient]. now rewrite IH.
Qed.

Lemma strict_char_is_lenient (c : ascii) (v : N) :
  Base64.sextet_of_char c = Some v ->
  Ascii.eqb c "=" = false /\ Base64.sextet_of_char_lenient c = Some v.
Proof.
  destruct c as [[] [] [] [] [] [] [] []]; intros E;
    solve [discriminate E | split; [reflexivity | exact E]].
Qed.

Lemma sextets_lenient_of_strict (x : string) (l : list N) :
  Base64.sextets_strict x = Some l -> Base64.sextets_lenient x = l.
Proof.
  revert l. induction x as [|c x IH]; intros l.
  - intros E. now injection E as <-.
  - cbn [Base64.sextets_strict Base64.sextets_lenient].
    destruct (Base64.sextet_of_char c) as [v|] eqn:Ec; [|discriminate].
    destruct (Base64.sextets_strict x) as [l'|]; [|discriminate].
    intros E. injection E as <-.
    destruct (strict_char_is_lenient c v Ec) as [E1 E2].
    now rewrite E1, E2, (IH l' eq_refl).
Qed.

Lemma drop_padding_of_eq (x : string) :
  Base64.drop_padding (String "=" x)
  = match x with
    | EmptyString => EmptyString
    | String c EmptyString =>
        if Ascii.eqb c "=" then EmptyString
        else String "=" (Base64.drop_padding x)
    | _ => String "=" (Base64.drop_padding x)
    end.
Proof.
  destruct x as [|c x]; [reflexivity|].
  destruct x as [|c' x]; destruct c as [[] [] [] [] [] [] [] []]; reflexivity.
Qed.

Lemma drop_padding_is_prefix (x : string) :
  exists j : nat, x = Base64.drop_padding x +:+ JsString.repeat_eq j.
Proof.
  induction x as [|c x [j IH]]; [now exists 0%nat|].
  destruct (Ascii.eqb c "=") eqn:Ec.
  - apply Ascii.eqb_eq in Ec. subst c. rewrite drop_padding_of_eq.
    destruct x as [|c x]; [now exists 1%nat|].
    destruct x as [|c' x].
    + destruct (Ascii.eqb c "=") eqn:Ec.
      * apply Ascii.eqb_eq in Ec. subst c. now exists 2%nat.
      * exists j.
        change (String "=" (Base64.drop_padding (String c EmptyString))
                +:+ JsString.repeat_eq j)
          with (String "=" (Base64.drop_padding (String c EmptyString)
                            +:+ JsString.repeat_eq j)).
        now rewrite <- IH.
    + exists j.
      change (String "=" (Base64.drop_padding (String c (String c' x)))
              +:+ JsString.repeat_eq j)
        with (String "=" (Base64.drop_padding (String c (String c' x))
                          +:+ JsString.repeat_eq j)).
      now rewrite <- IH.
  - rewrite drop_padding_cons by exact Ec. exists j.
    change (String c (Base64.drop_padding x) +:+ JsString.repeat_eq j)
      with (String c (Base64.drop_padding x +:+ JsString.repeat_eq j)).
    now rewrite <- IH.
Qed.

Lemma sextets_lenient_drop_padding (x : string) :
  Base64.sextets_lenient (Base64.drop_padding x) = Base64.sextets_lenient x.
Proof.
  destruct (drop_padding_is_prefix x) as [j E].
  rewrite E at 2. now rewrite sextets_lenient_append_padding.
Qed.

Lemma atob_is_lenient (data raw : string) :
  Base64.atob data = Some raw ->
  Base64.Buffer_from_base64 data = list_byte_of_string raw.
Proof.
  unfold Base64.atob, Base64.Buffer_from_base64. cbv zeta.
  set (d := Base64.remove_whitespace data).
  set (d' := if JsString.length d mod 4 =? 0 then Base64.drop_padding d else d).
  destruct (JsString.length d' mod 4 =? 1); [discriminate|].
  destruct (Base64.sextets_strict d') as [l|] eqn:El; [|discriminate].
  intros E. injection E as <-.
  rewrite list_byte_of_string_of_list_byte. f_equal.
  rewrite <- (sextets_lenient_of_strict d' l El).
  rewrite <- (sextets_lenient_remove_whitespace data). fold d.
  subst d'. destruct (_ =? 0); [|reflexivity].
  now rewrite sextets_lenient_drop_padding.
Qed.

(** X15. The two readings of a base64url text agree: whenever the strict
    decoding of [base64urlToUint8Array] (padding added, [atob]) returns
    bytes, the lenient decoding of [Buffer.from(text, "base64")] returns
    the same bytes.  So when the stored key of a login decodes for the
    verifier, [parseCoseP256Key] works on the very bytes the verifier was
    given: its result is the one it gives on the encoding of those bytes. *)
Theorem strict_decoding_agrees_with_lenient `{CodecLibraries}
    (text : string) (w w' w1 : World) (bytes : list byte) :
  base64urlToUint8Array text w = (w', Normal bytes) ->
  Base64.Buffer_from_base64 text = bytes
  /\ parseCoseP256Key text w1
     = parseCoseP256Key (uint8ArrayToBase64Url bytes) w1.
Proof.
  intros R.
  assert (E : Base64.Buffer_from_base64 text = bytes).
  { revert R. unfold base64urlToUint8Array. cbv zeta.
    set (k := N.to_nat ((4 - JsString.length text mod 4) mod 4)).
    fold (from_url (text +:+ JsString.repeat_eq k)).
    destruct (Base64.atob _) as [raw|] eqn:E; [|discriminate].
    intros R. injection R as _ <-.
    rewrite <- (atob_is_lenient _ _ E).
    unfold Base64.Buffer_from_base64. f_equal.
    now rewrite sextets_lenient_from_url, sextets_lenient_append_padding. }
  split; [exact E|].
  rewrite !parseCoseP256Key_of_bytes.
  now rewrite E, Buffer_from_base64_of_encoded.
Qed.

(** ** The key that [parseCred] builds *)

Lemma hex_digit_value_digit (v : N) :
  v < 16 -> hex_digit_value (Hex.digit v) = v.
Proof.
  intros Hv. destruct v as [|p]; [reflexivity|].
  do 4 (try destruct p as [p|p|]); try reflexivity; lia.
Qed.

Lemma BigInt_of_hex_from (bs : list byte) (acc : N) :
  fold_left (fun a c => a * 16 + hex_digit_value c)
    (list_ascii_of_string (Hex.encode bs)) acc
  = fold_left (fun a b => a * 256 + Byte.to_N b) bs acc.
Proof.
  revert acc. induction bs as [|b bs IH]; intros acc; [reflexivity|].
  cbn [Hex.encode list_ascii_of_string fold_left].
  pose proof (Byte.to_N_bounded b) as Hb.
  rewrite !hex_digit_value_digit
    by (try apply N.mod_lt; try apply N.Div0.div_lt_upper_bound; lia).
  rewrite IH. f_equal.
  pose proof (N.div_mod (Byte.to_N b) 16 ltac:(lia)). lia.
Qed.

Lemma BigInt_of_hex_encode (bs : list byte) :
  BigInt_of_hex (Hex.encode bs) = Reference.be bs.
Proof. apply BigInt_of_hex_from. Qed.

Lemma be_from_bound (bs : list byte) (acc : N) :
  fold_left (fun a b => a * 256 + Byte.to_N b) bs acc
  < (acc + 1) * 256 ^ N.of_nat (List.length bs).
Proof.
  revert acc. induction bs as [|b bs IH]; intros acc.
  - cbn [fold_left List.length]. change (256 ^ N.of_nat 0) with 1. lia.
  - cbn [fold_left List.length]. pose proof (Byte.to_N_bounded b) as Hb.
    eapply N.lt_le_trans; [apply IH|].
    rewrite Nat2N.inj_succ, N.pow_succ_r by lia.
    rewrite N.mul_assoc. apply N.mul_le_mono_r. lia.
Qed.

Lemma be_bound (bs : list byte) :
  Reference.be bs < 256 ^ N.of_nat (List.length bs).
Proof.
  pose proof (be_from_bound bs 0) as B. unfold Reference.be.
  now rewrite N.mul_1_l in B.
Qed.

Section ParseCred.

Context `{CodecLibraries}.

Lemma parseP256SpkiBase64_accepted (input : string) (w w' : World)
    (c : Coordinates) :
  parseP256SpkiBase64 input w = (w', Normal c) ->
  w' = w
  /\ exists X Y : list byte,
       List.length X = 32%nat /\ List.length Y = 32%nat
       /\ c = {| xHex := Hex.encode X; yHex := Hex.encode Y |}.
Proof.
  unfold parseP256SpkiBase64. cbv zeta. unfold throw, ret.
  destruct (_ =? _)%Z; [discriminate|].
  destruct (Asn1.value_length _) as [len|]; [|discriminate].
  destruct (len <? 2); [discriminate|].
  destruct (Asn1.value_at_1 _) as [[| payload nested | |]|]; try discriminate.
  rewrite short_payload_test.
  destruct (Nat.leb_spec 65 (List.length payload)) as [Hlen|_];
    [cbn [negb] | discriminate].
  destruct payload as [|b tail]; [discriminate|].
  destruct b; try discriminate.
  intros E. injection E as <- <-. split; [reflexivity|].
  destruct (uncompressed_point_split tail)
    as (X & Y & rest & _ & HX & HY & SX & SY);
    [cbn [List.length] in Hlen; lia|].
  exists X, Y. rewrite SX, SY. now repeat split.
Qed.

(** X16. When [parseCred] returns a key, its two numbers are the
    big-endian values of the 32 bytes of X and of the 32 bytes of Y that
    [parseP256SpkiBase64] extracted from the response's public key, both
    below 2^256; the identifier is the response's [id] unchanged, and the
    identifier hash is [keccak256] of "0x" followed by the hex of the
    decoded identifier. *)
Theorem parseCred_key (cred : RegistrationResponseJSON) (w w' : World)
    (key : WebAuthnKey) :
  parseCred cred w = (w', Normal key) ->
  exists (pubKey : string) (idBytes X Y : list byte),
    att_publicKey (reg_response cred) = Some pubKey
    /\ b64ToBytes (reg_id cred) w = (w, Normal idBytes)
    /\ parseP256SpkiBase64 pubKey w
       = (w, Normal {| xHex := Hex.encode X; yHex := Hex.encode Y |})
    /\ List.length X = 32%nat /\ List.length Y = 32%nat
    /\ pubX key = Reference.be X /\ pubY key = Reference.be Y
    /\ pubX key < 2 ^ 256 /\ pubY key < 2 ^ 256
    /\ authenticatorId key = reg_id cred
    /\ authenticatorIdHash key = keccak256 ("0x" +:+ Hex.encode idBytes).
Proof.
  unfold parseCred. cbv zeta. unfold bind at 1.
  destruct (b64ToBytes (reg_id cred) w) as [w0 [idBytes|e]] eqn:Eid;
    [|discriminate].
  assert (w0 = w) as ->.
  { revert Eid. unfold b64ToBytes. cbv zeta.
    destruct (Base64.atob _); unfold ret, throw; congruence. }
  destruct (JsString.truthy _) as [pubKey|] eqn:Ekey; [|discriminate].
  assert (Hkey : att_publicKey (reg_response cred) = Some pubKey).
  { destruct (att_publicKey (reg_response cred)) as [[|c0 s0]|];
      cbn [JsString.truthy] in Ekey; congruence. }
  unfold bind at 1.
  destruct (parseP256SpkiBase64 pubKey w) as [w1 [coords|e]] eqn:Ep;
    [|discriminate].
  destruct (parseP256SpkiBase64_accepted _ _ _ _ Ep) as (-> & X & Y & HX & HY & ->).
  unfold bind, console_log, modify, ret. cbn [xHex yHex].
  intros E. injection E as _ <-. cbn [pubX pubY authenticatorId authenticatorIdHash].
  exists pubKey, idBytes, X, Y. rewrite !BigInt_of_hex_encode.
  pose proof (be_bound X) as BX. pose proof (be_bound Y) as BY.
  rewrite HX in BX. rewrite HY in BY.
  change (256 ^ N.of_nat 32) with (2 ^ 256) in BX, BY.
  repeat split; try assumption; reflexivity.
Qed.

(** X17. [parseCred] logs only when it succeeds, and checks the identifier
    before the key: a call that throws leaves the world, console included,
    as it was; an identifier that [b64ToBytes] rejects makes it throw that
    error whatever the key; and with an identifier that decodes, a response
    without public key, or with an empty one, makes it throw "No public key
    found in response". *)
Theorem parseCred_failures (cred : RegistrationResponseJSON) (w : World) :
  (forall w' e, parseCred cred w = (w', Thrown e) -> w' = w)
  /\ (forall e,
        b64ToBytes (reg_id cred) w = (w, Thrown e) ->
        parseCred cred w = (w, Thrown e))
  /\ (forall idBytes,
        b64ToBytes (reg_id cred) w = (w, Normal idBytes) ->
        JsString.truthy (att_publicKey (reg_response cred)) = None ->
        parseCred cred w
        = (w, Thrown (Error "No public key found in response"))).
Proof.
  split; [|split].
  - intros w' e. unfold parseCred. cbv zeta. unfold bind at 1.
    destruct (b64ToBytes (reg_id cred) w) as [w0 [idBytes|e0]] eqn:Eid.
    + assert (w0 = w) as ->.
      { revert Eid. unfold b64ToBytes. cbv zeta.
        destruct (Base64.atob _); unfold ret, throw; congruence. }
      destruct (JsString.truthy _) as [pubKey|]; [|unfold throw; congruence].
      unfold bind at 1.
      rewrite (parseP256SpkiBase64_same_everywhere pubKey w initial_world).
      destruct (snd (parseP256SpkiBase64 pubKey initial_world));
        [|congruence].
      unfold bind, console_log, modify, ret. discriminate.
    + revert Eid. unfold b64ToBytes. cbv zeta.
      destruct (Base64.atob _); unfold ret, throw; congruence.
  - intros e Eid. unfold parseCred. cbv zeta. unfold bind at 1.
    now rewrite Eid.
  - intros idBytes Eid Ekey. unfold parseCred. cbv zeta. unfold bind at 1.
    now rewrite Eid, Ekey.
Qed.

End ParseCred.

(** ** What the decoders do not look at *)

Lemma slice_firstn (bytes : list byte) (from to n : nat) :
  (to <= n)%nat -> slice (firstn n bytes) from to = slice bytes from to.
Proof.
  intros Hn. unfold slice.
  rewrite skipn_firstn_comm, firstn_firstn. f_equal. lia.
Qed.

Section Ignored.

Context `{CodecLibraries}.

(** X18. [parseP256SpkiBase64] reads nothing but the first 65 bytes of the
    BIT STRING: two inputs that parse to sequences whose second elements
    are BIT STRINGs with the same first 65 bytes give the same result,
    whatever their first elements (the algorithm and curve identifiers),
    their further elements, and the bytes after the point. *)
Theorem parseP256SpkiBase64_reads_only_the_point
    (input1 input2 : string) (w : World)
    (first1 first2 : Asn1.Block) (payload1 payload2 : list byte)
    (nested1 nested2 more1 more2 : list Asn1.Block) :
  let asn1 := fromBER (Base64.Buffer_from_base64 input1) in
  let asn2 := fromBER (Base64.Buffer_from_base64 input2) in
  Asn1.offset asn1 <> (-1)%Z ->
  Asn1.offset asn2 <> (-1)%Z ->
  Asn1.result asn1
  = Asn1.Sequence (first1 :: Asn1.BitString payload1 nested1 :: more1) ->
  Asn1.result asn2
  = Asn1.Sequence (first2 :: Asn1.BitString payload2 nested2 :: more2) ->
  firstn 65 payload1 = firstn 65 payload2 ->
  parseP256SpkiBase64 input1 w = parseP256SpkiBase64 input2 w.
Proof.
  intros asn1 asn2 O1 O2 R1 R2 E.
  assert (P : forall input payload first nested more,
    Asn1.offset (fromBER (Base64.Buffer_from_base64 input)) <> (-1)%Z ->
    Asn1.result (fromBER (Base64.Buffer_from_base64 input))
    = Asn1.Sequence (first :: Asn1.BitString payload nested :: more) ->
    parseP256SpkiBase64 input w
    = if (65 <=? List.length payload)%nat
      then match firstn 65 payload with
           | Byte.x04 :: _ =>
               (w, Normal {| xHex := Hex.encode (slice (firstn 65 payload) 1 33);
                             yHex := Hex.encode (slice (firstn 65 payload) 33 65) |})
           | _ =>
               (w, Thrown (Error
                  "Expected uncompressed format (0x04) at start of public key data."))
           end
      else (w, Thrown (Error
              ("Public key bit string is too short. Length = "
               +:+ decimal (N.of_nat (List.length (firstn 65 payload))))))).
  { intros input payload first nested more O R.
    unfold parseP256SpkiBase64. cbv zeta.
    destruct (Z.eqb_spec (Asn1.offset (fromBER (Base64.Buffer_from_base64 input)))
                (-1)) as [E1|_]; [contradiction|].
    rewrite R. cbn [Asn1.value_length Asn1.value_at_1 List.length nth_error].
    destruct (N.ltb_spec (N.of_nat (S (S (List.length more)))) 2); [lia|].
    rewrite short_payload_test.
    destruct (Nat.leb_spec 65 (List.length payload)) as [Hl|Hl]; cbn [negb].
    - rewrite !slice_firstn by lia.
      destruct payload as [|b tail]; [cbn [List.length] in Hl; lia|].
      now destruct b.
    - now rewrite firstn_all2 by lia. }
  rewrite (P _ _ _ _ _ O1 R1), (P _ _ _ _ _ O2 R2).
  assert (L : (65 <=? List.length payload1)%nat
              = (65 <=? List.length payload2)%nat).
  { pose proof (f_equal (@List.length byte) E) as EL.
    rewrite !length_firstn in EL.
    destruct (Nat.leb_spec 65 (List.length payload1));
      destruct (Nat.leb_spec 65 (List.length payload2)); lia || reflexivity. }
  now rewrite L, E.
Qed.

(** X19. [parseCoseP256Key] looks at the entries of labels -2 and -3 only:
    two inputs that decode to maps with the same two entries give the same
    result, whatever the other entries say (the key type, the algorithm
    and the curve of a COSE key are never checked). *)
Theorem parseCoseP256Key_reads_only_two_labels
    (input1 input2 : string) (w : World)
    (entries1 entries2 : list (JsValue * JsValue)) :
  cbor_decodeFirstSync (Base64.Buffer_from_base64 input1)
  = Normal (JsMap entries1) ->
  cbor_decodeFirstSync (Base64.Buffer_from_base64 input2)
  = Normal (JsMap entries2) ->
  Map_get entries1 (-2) = Map_get entries2 (-2) ->
  Map_get entries1 (-3) = Map_get entries2 (-3) ->
  parseCoseP256Key input1 w = parseCoseP256Key input2 w.
Proof.
  intros D1 D2 EX EY. rewrite !parseCoseP256Key_of_bytes.
  now rewrite D1, D2, EX, EY.
Qed.

End Ignored.

(** ** The further properties on concrete requests *)

Lemma registration_challenge_is_used_once_witness :
  let library := Reference.accepting Sample.info in
  let w1 :=
    fst (verify_registration (H0 := library) "user-1" Sample.attestation
           (Sample.world "" 0)) in
  let w2 :=
    serve (H := Reference.codec) (H0 := library)
      [GenerateLoginOptions "another-challenge";
       GenerateRegistrationOptions "bob" "user-2" "challenge-2"] w1 in
  verify_registration (H0 := library) "user-1" Sample.attestation w2
  = (w2, Normal (json_status (ErrorBody "No challenge found for user") 400)).
Proof.
  intros library w1 w2.
  apply (registration_challenge_is_used_once
           (H := Reference.codec) (H0 := library)
           "user-1" Sample.attestation Sample.attestation (Sample.world "" 0)).
  - vm_compute. reflexivity.
  - vm_compute. reflexivity.
Defined.

Lemma outstanding_challenges_do_not_expire_witness :
  let library := Reference.accepting Sample.info in
  let requests :=
    [VerifyLogin (Sample.assertion Sample.data_counter_1) "another-challenge";
     GenerateRegistrationOptions "bob" "user-2" "challenge-2";
     GenerateLoginOptions "another-challenge"] in
  loginChallengeMap
    (serve (H := Reference.codec) (H0 := library) requests
       (fst (generate_login_options "fresh-challenge" initial_world)))
    !! "fresh-challenge" <> None
  /\ loginChallengeMap
       (serve (H := Reference.codec) (H0 := library) requests
          (Sample.world Sample.ec2_key 0))
       !! "login-challenge" <> None
  /\ registrationChallengeMap
       (serve (H := Reference.codec) (H0 := library) requests
          (Sample.world Sample.ec2_key 0))
       !! "user-1" <> None.
Proof.
  intros library requests.
  split; [|split].
  - apply (proj1 (outstanding_challenges_do_not_expire
                    (H := Reference.codec) (H0 := library)
                    requests initial_world "fresh-challenge" "user-1")).
    vm_compute. reflexivity.
  - apply (proj1 (proj2 (outstanding_challenges_do_not_expire
                    (H := Reference.codec) (H0 := library)
                    requests (Sample.world Sample.ec2_key 0)
                    "login-challenge" "user-1"))).
    + vm_compute. reflexivity.
    + vm_compute. discriminate.
  - apply (proj2 (proj2 (outstanding_challenges_do_not_expire
                    (H := Reference.codec) (H0 := library)
                    requests (Sample.world Sample.ec2_key 0)
                    "login-challenge" "user-1"))).
    + vm_compute. reflexivity.
    + vm_compute. discriminate.
Defined.

Lemma verify_login_without_user_witness :
  let w := Sample.world Sample.ec2_key 0 in
  let unknown :=
    {| auth_id := "AQIDBA"; auth_rawId := "AQIDBA";
       auth_response :=
         {| clientDataJSON := ""; authenticatorData := Sample.data_counter_1;
            signature := ""; userHandle := Some "user-9" |} |} in
  let nameless :=
    {| auth_id := "AQIDBA"; auth_rawId := "AQIDBA";
       auth_response :=
         {| clientDataJSON := ""; authenticatorData := Sample.data_counter_1;
            signature := ""; userHandle := Some "" |} |} in
  verify_login (H := Reference.codec) (H0 := Reference.rejecting)
    unknown "login-challenge" w
  = (w, Normal (json_status (ErrorBody "User Not Found") 400))
  /\ verify_login (H := Reference.codec) (H0 := Reference.rejecting)
       nameless "login-challenge" w
     = (w, Normal (json_status (ErrorBody "UserId Not Found") 400)).
Proof.
  intros w unknown nameless. split.
  - apply (verify_login_without_user
             (H := Reference.codec) (H0 := Reference.rejecting)
             unknown "login-challenge" w).
    + vm_compute. discriminate.
    + vm_compute. reflexivity.
  - apply (verify_login_without_user
             (H := Reference.codec) (H0 := Reference.rejecting)
             nameless "login-challenge" w).
    vm_compute. discriminate.
Defined.

Lemma users_are_kept_witness :
  exists record',
    userDB
      (serve (H := Reference.codec) (H0 := Reference.accepting Sample.info)
         [GenerateRegistrationOptions "mallory" "user-1" "challenge-2";
          VerifyRegistration "user-1" Sample.attestation;
          VerifyLogin (Sample.assertion Sample.data_counter_1) "login-challenge"]
         (Sample.world "" 0))
      !! "user-1" = Some record'
    /\ username record' = "alice".
Proof.
  apply (users_are_kept (H := Reference.codec)
           (H0 := Reference.accepting Sample.info) _ (Sample.world "" 0)
           "user-1"
           {| username := "alice";
              credentials :=
                {| credentialID := "AQIDBA"; publicKey := ""; counter := 0 |} |}).
  vm_compute. reflexivity.
Defined.

Lemma credential_changes_only_by_registration_witness :
  exists record',
    userDB
      (serve (H := Reference.codec) (H0 := Reference.accepting Sample.info)
         [GenerateRegistrationOptions "mallory" "user-1" "challenge-2";
          VerifyRegistration "user-2" Sample.attestation;
          VerifyLogin (Sample.assertion Sample.data_counter_1) "login-challenge"]
         (Sample.world Sample.ec2_key 0))
      !! "user-1" = Some record'
    /\ credentialID (credentials record') = "AQIDBA"
    /\ publicKey (credentials record') = Sample.ec2_key.
Proof.
  apply (credential_changes_only_by_registration (H := Reference.codec)
           (H0 := Reference.accepting Sample.info) _
           (Sample.world Sample.ec2_key 0) "user-1"
           {| username := "alice";
              credentials :=
                {| credentialID := "AQIDBA"; publicKey := Sample.ec2_key;
                   counter := 0 |} |}).
  - vm_compute. reflexivity.
  - vm_compute. reflexivity.
Defined.


Lemma strict_decoding_agrees_with_lenient_witness :
  Base64.Buffer_from_base64 "AQ ID BA" = [Byte.x01; Byte.x02; Byte.x03; Byte.x04].
Proof.
  apply (proj1 (strict_decoding_agrees_with_lenient (H := Reference.codec)
                  "AQ ID BA" initial_world initial_world initial_world
                  [Byte.x01; Byte.x02; Byte.x03; Byte.x04]
                  ltac:(vm_compute; reflexivity))).
Defined.

Lemma parseCred_key_witness :
  exists (key : WebAuthnKey) (w' : World),
    parseCred (H := Reference.codec) Sample.creation initial_world
    = (w', Normal key)
    /\ pubX key < 2 ^ 256
    /\ pubY key < 2 ^ 256
    /\ authenticatorId key = "AQIDBA".
Proof.
  destruct (parseCred (H := Reference.codec) Sample.creation initial_world)
    as [w' [key|e]] eqn:E; [|vm_compute in E; discriminate E].
  exists key, w'.
  destruct (parseCred_key (H := Reference.codec) _ _ _ _ E)
    as (pubKey & idBytes & X & Y & _ & _ & _ & _ & _ & _ & _ & BX & BY & I & _).
  split; [reflexivity|split; [exact BX|split; [exact BY|exact I]]].
Defined.

Lemma parseCred_failures_witness :
  parseCred (H := Reference.codec) Sample.attestation initial_world
  = (initial_world, Thrown (Error "No public key found in response"))
  /\ parseCred (H := Reference.codec)
       {| reg_id := "!"; reg_rawId := "!";
          reg_response := reg_response Sample.creation |} initial_world
     = (initial_world,
        Thrown (Error "The string to be decoded is not correctly encoded.")).
Proof.
  split.
  - apply (proj2 (proj2 (parseCred_failures (H := Reference.codec)
                           Sample.attestation initial_world))
             [Byte.x01; Byte.x02; Byte.x03; Byte.x04]).
    + vm_compute. reflexivity.
    + vm_compute. reflexivity.
  - apply (proj1 (proj2 (parseCred_failures (H := Reference.codec) _
                           initial_world))).
    vm_compute. reflexivity.
Defined.

Lemma parseP256SpkiBase64_reads_only_the_point_witness :
  parseP256SpkiBase64 (H := Reference.codec) Sample.spki_key initial_world
  = parseP256SpkiBase64 (H := Reference.codec)
      Sample.spki_key_without_algorithm initial_world
  /\ Base64.Buffer_from_base64 Sample.spki_key
     <> Base64.Buffer_from_base64 Sample.spki_key_without_algorithm.
Proof.
  split; [|vm_compute; discriminate].
  pose (second := fun key : string =>
          match Asn1.value_at_1
                  (Asn1.result (fromBER (CodecLibraries := Reference.codec)
                                  (Base64.Buffer_from_base64 key))) with
          | Some (Asn1.BitString payload _) => payload
          | _ => []
          end).
  refine (parseP256SpkiBase64_reads_only_the_point (H := Reference.codec)
            Sample.spki_key Sample.spki_key_without_algorithm initial_world
            (Asn1.Sequence _) (Asn1.Sequence [])
            (second Sample.spki_key) (second Sample.spki_key_without_algorithm)
            [] [] [] [] _ _ _ _ _).
  - vm_compute. discriminate.
  - vm_compute. discriminate.
  - vm_compute. reflexivity.
  - vm_compute. reflexivity.
  - vm_compute. reflexivity.
Defined.

Lemma parseCoseP256Key_reads_only_two_labels_witness :
  parseCoseP256Key (H := Reference.codec) Sample.ec2_key initial_world
  = parseCoseP256Key (H := Reference.codec) Sample.bare_key initial_world
  /\ Base64.Buffer_from_base64 Sample.ec2_key
     <> Base64.Buffer_from_base64 Sample.bare_key.
Proof.
  split; [|vm_compute; discriminate].
  pose (entries := fun key : string =>
          match cbor_decodeFirstSync (CodecLibraries := Reference.codec)
                  (Base64.Buffer_from_base64 key) with
          | Normal (JsMap entries) => entries
          | _ => []
          end).
  apply (parseCoseP256Key_reads_only_two_labels (H := Reference.codec)
           Sample.ec2_key Sample.bare_key initial_world
           (entries Sample.ec2_key) (entries Sample.bare_key));
    vm_compute; reflexivity.
Defined.

(** ** What the server stores is what its encoder wrote *)

Section Encoded.

Context `{CodecLibraries} `{WebAuthnServer}.

Lemma handle_credentials_encoded (r : Request) (w : World) :
  credentials_encoded w -> credentials_encoded (fst (handle r w)).
Proof.
  intros Hw.
  destruct r as [userName uuid c|userId credential|c|credential c];
    handler_cases; try exact Hw; intros k record; cbn [userDB].
  - destruct (decide (uuid = k)) as [->|Hne].
    + rewrite lookup_insert_eq. intros E. injection E as <-.
      exists [], []. split; reflexivity.
    + rewrite lookup_insert_ne by exact Hne. apply Hw.
  - destruct (decide (userId = k)) as [->|Hne].
    + rewrite lookup_insert_eq. intros E. injection E as <-.
      cbn [credentials credentialID publicKey]. eauto.
    + rewrite lookup_insert_ne by exact Hne. apply Hw.
  - destruct (decide (s = k)) as [->|Hne].
    + match goal with Hu : userDB w !! k = Some _ |- _ =>
        rewrite lookup_alter_eq, Hu; intros E; injection E as <-;
        cbn [credentials credentialID publicKey]; exact (Hw _ _ Hu)
      end.
    + rewrite lookup_alter_ne by exact Hne. apply Hw.
  - destruct (decide (s = k)) as [->|Hne].
    + match goal with Hu : userDB w !! k = Some _ |- _ =>
        rewrite lookup_alter_eq, Hu; intros E; injection E as <-;
        cbn [credentials credentialID publicKey]; exact (Hw _ _ Hu)
      end.
    + rewrite lookup_alter_ne by exact Hne. apply Hw.
Qed.

(** X20. In every world that the server reaches from the empty one, the
    credential identifier and the public key stored for a user are texts
    that [uint8ArrayToBase64Url] wrote for some bytes (no bytes for the
    placeholder), and [base64urlToUint8Array] reads those bytes back: the
    two decodings at the start of [verify_login] never throw on a stored
    record. *)
Theorem stored_credentials_are_encodings
    (requests : list Request) (userId : string) (userRecord : UserRecord) :
  userDB (serve requests initial_world) !! userId = Some userRecord ->
  exists idBytes keyBytes : list byte,
    credentialID (credentials userRecord) = uint8ArrayToBase64Url idBytes
    /\ publicKey (credentials userRecord) = uint8ArrayToBase64Url keyBytes
    /\ forall w : World,
         base64urlToUint8Array (credentialID (credentials userRecord)) w
         = (w, Normal idBytes)
         /\ base64urlToUint8Array (publicKey (credentials userRecord)) w
            = (w, Normal keyBytes).
Proof.
  assert (G : credentials_encoded (serve requests initial_world)).
  { apply (serve_preserves credentials_encoded (fun _ => true)).
    - intros r w _. apply handle_credentials_encoded.
    - induction requests as [|r rest IH]; [reflexivity|exact IH].
    - intros k record E. cbn [initial_world userDB] in E.
      rewrite lookup_empty in E. discriminate E. }
  intros Hu.
  destruct (G _ _ Hu) as (idBytes & keyBytes & Eid & Ekey).
  exists idBytes, keyBytes. split; [exact Eid|split; [exact Ekey|]].
  intros w. rewrite Eid, Ekey.
  split; apply base64urlToUint8Array_of_encoded.
Qed.

End Encoded.

Lemma stored_credentials_are_encodings_witness :
  exists idBytes keyBytes : list byte,
    "AQIDBA" = uint8ArrayToBase64Url idBytes
    /\ Sample.ec2_key = uint8ArrayToBase64Url keyBytes
    /\ forall w : World,
         base64urlToUint8Array "AQIDBA" w = (w, Normal idBytes)
         /\ base64urlToUint8Array Sample.ec2_key w = (w, Normal keyBytes).
Proof.
  apply (stored_credentials_are_encodings
           (H := Reference.codec) (H0 := Reference.accepting Sample.info)
           [GenerateRegistrationOptions "alice" "user-1" "challenge-1";
            VerifyRegistration "user-1" Sample.attestation]
           "user-1"
           {| username := "alice";
              credentials :=
                {| credentialID := "AQIDBA"; publicKey := Sample.ec2_key;
                   counter := 0 |} |}).
  vm_compute. reflexivity.
Defined.
